(** * protis.threed.lattice: the [Lattice] unit cell and its harmonics

    A shallow embedding of [src/protis/threed/lattice.py].

    Modelling conventions.
    - Python [int] values are [Z]; finite [float64] values and arrays of
      them are modelled by real numbers [R] with exact arithmetic.  The
      infinities and nan, which [int] rejects, are values of their own.
    - Arrays of [int64] wrap around; [volume], which does not cast its
      basis vectors to [float64], has a second model for basis vectors given
      as Python ints.
    - The one place where rounding decides a discrete outcome, the power
      [nh ** (1 / 3)] that is truncated by [int], is kept abstract: it is the
      operation [float_pow] of the class [FloatArith], about which nothing is
      assumed.  Exact arithmetic ([Rpower]) is one instance, the exact power
      with the exponent stored in double precision another.  Only the bound
      on the number of harmonics returned needs more: there the power is
      taken to be accurate to one unit in the last place ([AccuratePow]).
    - [bk.argsort] is specified by its contract (a sorting permutation of the
      positions); the order among equal keys is left open, as NumPy's default
      sort leaves it.  The class [Backend] carries it.
    - Exceptions are values of [exn]; a call that may raise returns a
      [result]. *)

From Stdlib Require Import String.
From Stdlib Require Import Reals ZArith List Lra Lia Bool.
From Stdlib Require Import Permutation Sorted Psatz FinFun.
Import ListNotations.

Set Implicit Arguments.

Local Open Scope Z_scope.

(** ** Python values and exceptions *)

Inductive exn : Type :=
| ValueError
| TypeError
| IndexError
| NotImplementedError
| LinAlgError
| OverflowError.

Inductive result (A : Type) : Type :=
| OK (a : A)
| Raise (e : exn).

Arguments OK {A} a.
Arguments Raise {A} e.

Definition bind {A B : Type} (m : result A) (k : A -> result B) : result B :=
  match m with
  | OK a => k a
  | Raise e => Raise e
  end.

Notation "x <- m ;; k" := (bind m (fun x => k))
  (at level 61, m at next level, right associativity).

(** A Python number: an [int], a finite [float], an infinity
    ([float("inf")] or its opposite) or [float("nan")]. *)
Inductive pynum : Type :=
| PyInt (n : Z)
| PyFloat (x : R)
| PyInf (negative : bool)
| PyNan.

(** The value of a finite number; the infinities and nan have none, and
    every use below sets them apart first. *)
Definition to_float (v : pynum) : R :=
  match v with
  | PyInt n => IZR n
  | PyFloat x => x
  | PyInf _ | PyNan => 0
  end.

(** [int(x)] on a finite float truncates towards zero. *)
Definition trunc (x : R) : Z :=
  if Rle_dec 0 x then Zfloor x else Zceil x.

(** [int(v)]: an infinity raises [OverflowError], nan raises
    [ValueError]. *)
Definition py_int (v : pynum) : result Z :=
  match v with
  | PyInt n => OK n
  | PyFloat x => OK (trunc x)
  | PyInf _ => Raise OverflowError
  | PyNan => Raise ValueError
  end.

(** [i == v] for an [int] [i]: between two [int]s, or between an [int] and
    a [float], which Python compares by their exact values. *)
Definition int_eqb (i : Z) (v : pynum) : bool :=
  match v with
  | PyInt n => (i =? n)%Z
  | PyFloat x => if Req_dec_T (IZR i) x then true else false
  | PyInf _ | PyNan => false
  end.

(** [int(v) == v] *)
Definition is_integral (v : pynum) : result bool :=
  i <- py_int v ;; OK (int_eqb i v).

(** A sequence of exactly three items, and [t[i]] on it with Python's
    negative indices; any other index raises [IndexError]. *)
Definition triple (A : Type) : Type := (A * A * A)%type.

Definition getitem3 {A : Type} (t : triple A) (i : Z) : result A :=
  let '(a, b, c) := t in
  let j := if i <? 0 then i + 3 else i in
  if j =? 0 then OK a
  else if j =? 1 then OK b
  else if j =? 2 then OK c
  else Raise IndexError.

Definition map3 {A B : Type} (f : A -> B) (t : triple A) : triple B :=
  let '(a, b, c) := t in (f a, f b, f c).

(** ** The array backend [bk] *)

Local Open Scope R_scope.

Definition vec3 : Type := triple R.
Definition mat3 : Type := triple vec3.

(** [bk.dot] and [@] on two vectors of length three. *)
Definition dot (a b : vec3) : R :=
  let '(a0, a1, a2) := a in
  let '(b0, b1, b2) := b in
  a0 * b0 + a1 * b1 + a2 * b2.

(** [bk.cross] *)
Definition cross (a b : vec3) : vec3 :=
  let '(a0, a1, a2) := a in
  let '(b0, b1, b2) := b in
  (a1 * b2 - a2 * b1, a2 * b0 - a0 * b2, a0 * b1 - a1 * b0).

(** [bk.linalg.norm] on a vector, and on a 0-d array (the square root of the
    element squared). *)
Definition norm (a : vec3) : R := sqrt (dot a a).

Definition norm0 (x : R) : R := sqrt (x * x).

(** [m.T] *)
Definition transpose (m : mat3) : mat3 :=
  let '((a0, a1, a2), (b0, b1, b2), (c0, c1, c2)) := m in
  ((a0, b0, c0), (a1, b1, c1), (a2, b2, c2)).

Definition scale3 (k : R) (a : vec3) : vec3 :=
  let '(a0, a1, a2) := a in (k * a0, k * a1, k * a2).

(** A float times a matrix. *)
Definition mscale (k : R) (m : mat3) : mat3 := map3 (scale3 k) m.

(** The matrix product of two 3x3 matrices given by their rows. *)
Definition matmul (m n : mat3) : mat3 :=
  let '(n0, n1, n2) := transpose n in
  map3 (fun r => (dot r n0, dot r n1, dot r n2)) m.

Definition identity3 : mat3 := ((1, 0, 0), (0, 1, 0), (0, 0, 1)).

Definition det (m : mat3) : R :=
  let '(a, b, c) := m in dot (cross a b) c.

(** [bk.linalg.inv]: the inverse of a matrix given by its rows, by cofactors.
    In exact arithmetic the elimination meets a zero pivot, and raises
    [LinAlgError], exactly for a singular matrix.  LAPACK tests the pivots of
    the rounded factorisation, which a singular matrix may pass. *)
Definition inv (m : mat3) : result mat3 :=
  let '(a, b, c) := m in
  let d := det m in
  if Req_dec_T d 0 then Raise LinAlgError
  else OK (transpose (scale3 (/ d) (cross b c),
                      scale3 (/ d) (cross c a),
                      scale3 (/ d) (cross a b))).

(** Arithmetic on [int64] arrays wraps around. *)
Definition wrap64 (z : Z) : Z := ((z + 2 ^ 63) mod 2 ^ 64 - 2 ^ 63)%Z.

Definition mul64 (a b : Z) : Z := wrap64 (a * b)%Z.
Definition sub64 (a b : Z) : Z := wrap64 (a - b)%Z.
Definition add64 (a b : Z) : Z := wrap64 (a + b)%Z.

(** [bk.cross] and [@] on two [int64] vectors of length three. *)
Definition cross64 (a b : triple Z) : triple Z :=
  let '(a0, a1, a2) := a in
  let '(b0, b1, b2) := b in
  (sub64 (mul64 a1 b2) (mul64 a2 b1),
   sub64 (mul64 a2 b0) (mul64 a0 b2),
   sub64 (mul64 a0 b1) (mul64 a1 b0)).

Definition dot64 (a b : triple Z) : Z :=
  let '(a0, a1, a2) := a in
  let '(b0, b1, b2) := b in
  add64 (add64 (mul64 a0 b0) (mul64 a1 b1)) (mul64 a2 b2).

(** [bk.arange(a, b)] on integers. *)
Definition arange (a b : Z) : list Z :=
  map (fun i => (a + Z.of_nat i)%Z) (seq 0 (Z.to_nat (b - a))).

(** Python's [range(a, b)]. *)
Definition range (a b : Z) : list Z := arange a b.

(** [bk.linspace(start, stop, num)]: [num] samples, both ends included.  The
    number of samples must be an [int] and must not be negative. *)
Definition linspace (start stop : R) (num : pynum) : result (list R) :=
  match num with
  | PyInt n =>
      if (n <? 0)%Z then Raise ValueError
      else
        let div := (n - 1)%Z in
        let delta := stop - start in
        OK (map (fun i =>
                   if (0 <? div)%Z
                   then if (i =? div)%Z then stop
                        else start + IZR i * (delta / IZR div)
                   else start + IZR i * delta)
                (arange 0 n))
  | PyFloat _ | PyInf _ | PyNan => Raise TypeError
  end.

(** [bk.meshgrid(xs, ys, zs, indexing="ij")]: three arrays of shape
    [(len xs, len ys, len zs)]; the first varies along axis 0 only, the second
    along axis 1, the third along axis 2. *)
Definition meshgrid {A : Type} (xs ys zs : list A)
  : triple (list (list (list A))) :=
  (map (fun x => map (fun y => map (fun z => x) zs) ys) xs,
   map (fun x => map (fun y => map (fun z => y) zs) ys) xs,
   map (fun x => map (fun y => map (fun z => z) zs) ys) xs).

(** [g.flatten()] of a 3-d array, in row-major order. *)
Definition flatten {A : Type} (g : list (list (list A))) : list A :=
  concat (map (@concat A) g).

(** [bk.stack([x, y, z])]: a new leading axis of length three. *)
Definition stack {A : Type} (t : triple A) : list A :=
  let '(a, b, c) := t in [a; b; c].

(** Element-wise operations on 1-d arrays. *)
Fixpoint zip_with {A B C : Type} (f : A -> B -> C) (l : list A) (l' : list B)
  : list C :=
  match l, l' with
  | a :: t, b :: t' => f a b :: zip_with f t t'
  | _, _ => []
  end.

(** [g ** 2] and [k * g] and [g * g'] on integer arrays. *)
Definition arr_sq (g : list Z) : list Z := map (fun x => (x ^ 2)%Z) g.
Definition arr_kmul (k : Z) (g : list Z) : list Z := map (Z.mul k) g.
Definition arr_mul (g g' : list Z) : list Z := zip_with Z.mul g g'.

(** An integer array times a float. *)
Definition arr_fmul (g : list Z) (s : R) : list R := map (fun x => IZR x * s) g.

Definition arr_add (a b : list R) : list R := zip_with Rplus a b.

(** The accumulator [Gl2] starts as the scalar [0] and becomes an array after
    the first [+=]. *)
Inductive ndarray : Type :=
| Scalar (x : R)
| Array (l : list R).

Definition nd_add (a : ndarray) (b : list R) : ndarray :=
  match a with
  | Scalar x => Array (map (Rplus x) b)
  | Array l => Array (arr_add l b)
  end.

(** [g[jsort]]: the items of [g] at the positions listed in [jsort]. The
    positions come from [argsort] and are in range. *)
Definition take (g : list Z) (jsort : list nat) : list Z :=
  map (fun j => nth j g 0%Z) jsort.

(** [g[:n]] with Python's reading of a negative bound. *)
Definition slice_to {A : Type} (n : Z) (g : list A) : list A :=
  if (n <? 0)%Z then firstn (length g - Z.to_nat (- n)) g
  else firstn (Z.to_nat n) g.

(** [bk.argsort] by its contract: a permutation of the positions that lists
    the keys in ascending order. *)
Class Backend : Type := {
  argsort : list R -> list nat;
  argsort_perm : forall ks, Permutation (argsort ks) (seq 0 (length ks));
  argsort_sorted :
    forall ks, Sorted Rle (map (fun j => nth j ks 0) (argsort ks))
}.

(** Python's float power, for a base that is not negative. *)
Class FloatArith : Type := {
  float_pow : R -> R -> R
}.

(** The literal [1 / 3] is stored as the double next to it, which lies
    below: [6004799503160661 / 2 ^ 54]. *)
Definition stored_third : R := 6004799503160661 / 18014398509481984.

(** A float power of the accuracy that C libraries document for [pow], one
    unit in the last place: [n ** (1 / 3)] converts the int [n] to the
    nearest double [x], which lies within a relative distance [2 ^ -53] of
    [n], and returns a double within a relative distance [2 ^ -52] of the
    exact power of [x] by the stored exponent; and [1 ** y] is [1]. *)
Class AccuratePow (FA : FloatArith) : Prop := {
  pow_one : float_pow 1 (1 / 3) = 1;
  pow_accurate :
    forall n : Z, (2 <= n)%Z ->
    exists x : R,
      Rabs (x - IZR n) <= IZR n / 2 ^ 53
      /\ Rabs (float_pow (IZR n) (1 / 3) - Rpower x stored_third)
         <= Rpower x stored_third / 2 ^ 52
}.

(** The least magnitude of an [int] that does not convert to a float: the
    midpoint between the largest double and [2 ^ 1024]. *)
Definition float_overflow : Z := (2 ^ 1024 - 2 ^ 970)%Z.

(** [x ** y] with a fractional [y > 0], where the enclosing [int] expects a
    finite float next.  A negative base gives a complex number, which [int]
    rejects with [TypeError]; a negative [int] at or beyond
    [- float_overflow] does not even convert to a float ([OverflowError]; no
    float has such a value).  The power of an infinity is infinite and that
    of nan is nan, which [int] rejects with [OverflowError] and
    [ValueError].  For a base that is not negative the result is the
    abstract float power.  A positive [int] at or beyond [float_overflow]
    raises [OverflowError] as well; there the model returns the abstract
    power, so that it returns wherever the code does. *)
Definition py_pow `{FloatArith} (x : pynum) (y : R) : result R :=
  match x with
  | PyInf _ => Raise OverflowError
  | PyNan => Raise ValueError
  | PyInt _ | PyFloat _ =>
      let v := to_float x in
      if Rlt_dec v 0 then
        if Rle_dec v (- IZR float_overflow) then Raise OverflowError
        else Raise TypeError
      else OK (float_pow v y)
  end.

(** Finite complex numbers, [complex128], by real and imaginary part. *)
Definition complex : Type := (R * R)%type.

Definition cmul (x y : complex) : complex :=
  let '(a, b) := x in
  let '(c, d) := y in
  (a * c - b * d, a * d + b * c).

(** An array of any number of axes, as nested sequences. *)
#[warnings="-register-all"]
Inductive ndarr (A : Type) : Type :=
| Item (a : A)
| Axis (l : list (ndarr A)).

Arguments Item {A} a.
Arguments Axis {A} l.

Fixpoint nd_map {A B : Type} (f : A -> B) (a : ndarr A) : ndarr B :=
  match a with
  | Item x => Item (f x)
  | Axis l => Axis (map (nd_map f) l)
  end.

(** The array of a given shape filled with one value. *)
Fixpoint full {A : Type} (shape : list nat) (v : A) : ndarr A :=
  match shape with
  | [] => Item v
  | n :: s => Axis (repeat (full s v) n)
  end.

(** The largest number of axes of an array (NumPy 2). *)
Definition NPY_MAXDIMS : nat := 64.

Definition is_int (v : pynum) : bool :=
  match v with
  | PyInt _ => true
  | PyFloat _ | PyInf _ | PyNan => false
  end.

Definition is_negative_int (v : pynum) : bool :=
  match v with
  | PyInt n => (n <? 0)%Z
  | PyFloat _ | PyInf _ | PyNan => false
  end.

Definition axis_length (v : pynum) : nat :=
  match v with
  | PyInt n => Z.to_nat n
  | PyFloat _ | PyInf _ | PyNan => 0%nat
  end.

(** A shape given as a sequence of Python numbers: at most [NPY_MAXDIMS] of
    them, every entry an [int], none negative.  Sizes that no memory holds
    are not modelled. *)
Definition as_shape (d : list pynum) : result (list nat) :=
  if (NPY_MAXDIMS <? length d)%nat then Raise ValueError
  else if existsb (fun v => negb (is_int v)) d then Raise TypeError
  else if existsb is_negative_int d then Raise ValueError
  else OK (map axis_length d).

(** [bk.ones(shape, dtype=bk.complex128)], [bk.zeros(...)] and an array
    times a complex number. *)
Definition bk_ones (d : list pynum) : result (ndarr complex) :=
  s <- as_shape d ;; OK (full s (1, 0)).

Definition bk_zeros (d : list pynum) : result (ndarr complex) :=
  s <- as_shape d ;; OK (full s (0, 0)).

Definition nd_times (a : ndarr complex) (value : complex) : ndarr complex :=
  nd_map (fun x => cmul x value) a.

(** A [(3, nh)] integer array, by its three rows. *)
Definition harmonics : Type := triple (list Z).

(** [bk.shape(a)[1]] *)
Definition ncols (a : harmonics) : Z :=
  let '(r0, _, _) := a in Z.of_nat (length r0).

(** ** Truncation of the reciprocal lattice *)

Section Truncation.

Context `{FloatArith} `{Backend}.

(** One pass of the loop [for i in range(-1, 2)]: the term added to [Gl2]. *)
Definition Gl2_term (G : triple (list Z)) (u : triple R) (Lk : mat3) (i : Z)
  : result (list R) :=
  Lki <- getitem3 Lk i ;;
  Lki1 <- getitem3 Lk (i + 1) ;;
  let udot := dot Lki Lki1 in
  Gi <- getitem3 G i ;;
  ui <- getitem3 u i ;;
  Gi1 <- getitem3 G (i + 1) ;;
  ui1 <- getitem3 u (i + 1) ;;
  OK (arr_add
        (arr_add (arr_fmul (arr_sq Gi) (ui ^ 2))
                 (arr_fmul (arr_sq Gi1) (ui1 ^ 2)))
        (arr_fmul (arr_mul (arr_kmul 2 Gi) Gi1) udot)).

Definition Gl2_loop (G : triple (list Z)) (u : triple R) (Lk : mat3)
  : result ndarray :=
  fold_left
    (fun acc i => Gl2 <- acc ;; t <- Gl2_term G u Lk i ;; OK (nd_add Gl2 t))
    (range (-1) 2) (OK (Scalar 0)).

(** [bk.argsort] of the accumulated keys; a 0-d array has no axis to sort
    along. *)
Definition argsort_nd (a : ndarray) : result (list nat) :=
  match a with
  | Array ks => OK (argsort ks)
  | Scalar _ => Raise ValueError
  end.

Definition _parallelogramic_truncation (nh : pynum) (Lk : mat3)
  : result (harmonics * Z) :=
  let u := map3 norm Lk in
  r <- py_pow nh (1 / 3) ;;
  let NGroot := trunc r in
  let NGroot := if (NGroot mod 2 =? 0)%Z then (NGroot - 1)%Z else NGroot in
  let M := (NGroot / 2)%Z in
  let xG := arange (- M) (NGroot - M) in
  let G := meshgrid xG xG xG in
  let G := map3 (@flatten Z) G in
  Gl2 <- Gl2_loop G u Lk ;;
  jsort <- argsort_nd Gl2 ;;
  let Gsorted := map3 (fun g => take g jsort) G in
  let nh := (NGroot ^ 3)%Z in
  let G := map3 (slice_to nh) Gsorted in
  OK (G, nh).

Definition _spherical_truncation (nh : pynum) (Lk : mat3)
  : result (harmonics * Z) :=
  Raise NotImplementedError.

End Truncation.

(** ** The class [Lattice] *)

(** Modelled from the spec: [is_scalar] of [protis.utils] is not among the
    sources.  The constructor is given either one scalar or a sequence for
    [discretization] ("scalar broadcast ... or explicit tuple"); [is_scalar]
    tells the two apart, and the two constructors are its two answers. *)
Inductive discretization_arg : Type :=
| DScalar (d : pynum)
| DSeq (l : list pynum).

Module Lattice.

Record t : Type := {
  truncation : string;
  basis_vectors : triple vec3;
  discretization : list pynum;
  harmonics_array : option harmonics
}.

(** The default of the parameter [discretization]. *)
Definition default_discretization : discretization_arg :=
  DScalar (PyInt (2 ^ 8)).

Definition __init__ (basis_vectors : triple vec3)
  (discretization : discretization_arg) (truncation : string)
  (harmonics_array : option harmonics) : result t :=
  let discretization :=
    match discretization with
    | DScalar d => [d; d]   (* is_scalar: [discretization, discretization] *)
    | DSeq l => l           (* list(discretization) *)
    end in
  if negb (existsb (String.eqb truncation)
             ["spherical"%string; "parallelogrammic"%string])
  then Raise ValueError
  else OK {| truncation := truncation;
             basis_vectors := basis_vectors;
             discretization := discretization;
             harmonics_array := harmonics_array |}.

(** [volume], for basis vectors that hold floats. *)
Definition volume (self : t) : result R :=
  let v := basis_vectors self in
  v0 <- getitem3 v 0 ;;
  v1 <- getitem3 v 1 ;;
  v2 <- getitem3 v 2 ;;
  OK (norm0 (dot (cross v0 v1) v2)).

(** [volume], for basis vectors given as Python ints (within the [int64]
    range): no cast to [float64] precedes [bk.cross] and [@], unlike in
    [matrix], so both work on [int64] arrays; [bk.linalg.norm] then converts
    the 0-d result to a float. *)
Definition volume_int64 (v : triple (triple Z)) : result R :=
  v0 <- getitem3 v 0 ;;
  v1 <- getitem3 v 1 ;;
  v2 <- getitem3 v 2 ;;
  OK (norm0 (IZR (dot64 (cross64 v0 v1) v2))).

Definition matrix (self : t) : mat3 := transpose (basis_vectors self).

Definition reciprocal (self : t) : result mat3 :=
  m <- inv (matrix self) ;;
  OK (mscale (2 * PI) (transpose m)).

Section Methods.

Context `{FloatArith} `{Backend}.

Definition get_harmonics (self : t) (nh : pynum) : result (harmonics * Z) :=
  match harmonics_array self with
  | Some a => OK (a, ncols a)
  | None =>
      same <- is_integral nh ;;
      if negb same then Raise ValueError
      else if String.eqb (truncation self) "spherical"
      then Lk <- reciprocal self ;; _spherical_truncation nh Lk
      else Lk <- reciprocal self ;; _parallelogramic_truncation nh Lk
  end.

End Methods.

Definition unit_grid (self : t) : result (list (list (list (list R)))) :=
  match discretization self with
  | [Nx; Ny; Nz] =>
      x0 <- linspace 0 1 Nx ;;
      y0 <- linspace 0 1 Ny ;;
      z0 <- linspace 0 1 Nz ;;
      OK (stack (meshgrid x0 y0 z0))
  | _ => Raise ValueError
  end.

Definition ones (self : t) : result (ndarr complex) :=
  bk_ones (discretization self).

Definition zeros (self : t) : result (ndarr complex) :=
  bk_zeros (discretization self).

Definition constant (self : t) (value : complex) : result (ndarr complex) :=
  a <- ones self ;; OK (nd_times a value).

End Lattice.

(** ** Notions used in the statements *)

Definition vadd (a b : vec3) : vec3 :=
  let '(a0, a1, a2) := a in
  let '(b0, b1, b2) := b in
  (a0 + b0, a1 + b1, a2 + b2).

(** The three vectors admit no linear relation but the trivial one. *)
Definition linearly_independent (v : triple vec3) : Prop :=
  let '(v0, v1, v2) := v in
  forall a b c : R,
    vadd (vadd (scale3 a v0) (scale3 b v1)) (scale3 c v2) = (0, 0, 0) ->
    a = 0 /\ b = 0 /\ c = 0.

(** The range of [int64], in which NumPy stores Python ints, and a vector
    of such ints. *)
Definition in_int64 (z : Z) : Prop := (- 2 ^ 63 <= z < 2 ^ 63)%Z.

Definition int64_vector (v : triple Z) : Prop :=
  let '(a, b, c) := v in in_int64 a /\ in_int64 b /\ in_int64 c.

(** The triple product of integer vectors, without wrap-around. *)
Definition triple_product (a b c : triple Z) : Z :=
  let '(a0, a1, a2) := a in
  let '(b0, b1, b2) := b in
  let '(c0, c1, c2) := c in
  ((a1 * b2 - a2 * b1) * c0 + (a2 * b0 - a0 * b2) * c1
   + (a0 * b1 - a1 * b0) * c2)%Z.

(** A matrix divided by a float, entry by entry. *)
Definition mdiv (m : mat3) (k : R) : mat3 :=
  map3 (map3 (fun x => x / k)) m.


(** The harmonics of an array, column by column. *)
Definition index3 : Type := (Z * Z * Z)%type.

Fixpoint zip3 (r0 r1 r2 : list Z) : list index3 :=
  match r0, r1, r2 with
  | a :: t0, b :: t1, c :: t2 => (a, b, c) :: zip3 t0 t1 t2
  | _, _, _ => []
  end.

Definition columns (G : harmonics) : list index3 :=
  let '(r0, r1, r2) := G in zip3 r0 r1 r2.

Definition rows_of (cs : list index3) : harmonics :=
  (map (fun t => fst (fst t)) cs, map (fun t => snd (fst t)) cs,
   map (fun t => snd t) cs).

(** All triples over three index ranges, in row-major order. *)
Definition cube3 (xs ys zs : list Z) : list index3 :=
  flat_map (fun x => flat_map (fun y => map (fun z => (x, y, z)) zs) ys) xs.

(** The weighted quadratic form of one harmonic: the three cyclic pairs of
    axes [(2, 0)], [(0, 1)], [(1, 2)]. *)
Definition pair_form (a b : vec3) (ia ib : Z) : R :=
  IZR ia ^ 2 * norm a ^ 2 + IZR ib ^ 2 * norm b ^ 2
  + 2 * IZR ia * IZR ib * dot a b.

Definition Gl2_of (Lk : mat3) (t : index3) : R :=
  let '(k0, k1, k2) := Lk in
  let '(i0, i1, i2) := t in
  pair_form k2 k0 i2 i0 + pair_form k0 k1 i0 i1 + pair_form k1 k2 i1 i2.

(** The rows of [Lk] have length one and are orthogonal to each other. *)
Definition orthonormal (Lk : mat3) : Prop :=
  let '(k0, k1, k2) := Lk in
  dot k0 k0 = 1 /\ dot k1 k1 = 1 /\ dot k2 k2 = 1
  /\ dot k0 k1 = 0 /\ dot k1 k2 = 0 /\ dot k2 k0 = 0.

(** [r] is the integer part of the cube root of [n]. *)
Definition floor_cbrt (n r : Z) : Prop :=
  (0 <= r /\ r ^ 3 <= n < (r + 1) ^ 3)%Z.

(** A number of samples that [bk.linspace] accepts, and one that it rejects
    for its sign. *)
Definition sample_count (v : pynum) : Prop :=
  exists n : Z, v = PyInt n /\ (0 <= n)%Z.

Definition negative_count (v : pynum) : Prop :=
  exists n : Z, v = PyInt n /\ (n < 0)%Z.

(** The odd number [NGroot] derived from a truncated cube root [r]. *)
Definition odd_below (r : Z) : Z :=
  if Z.even r then (r - 1)%Z else r.

(** A lattice with other basis vectors. *)
Definition with_basis (L : Lattice.t) (v : triple vec3) : Lattice.t :=
  {| Lattice.truncation := Lattice.truncation L;
     Lattice.basis_vectors := v;
     Lattice.discretization := Lattice.discretization L;
     Lattice.harmonics_array := Lattice.harmonics_array L |}.

(** Shapes, values and entries of 3-d arrays and of stacks of them. *)
Definition array3 : Type := list (list (list R)).

Definition has_shape3 (a : array3) (n0 n1 n2 : nat) : Prop :=
  length a = n0
  /\ Forall (fun p => length p = n1 /\ Forall (fun q => length q = n2) p) a.

Definition has_shape4 (g : list array3) (n n0 n1 n2 : nat) : Prop :=
  length g = n /\ Forall (fun a => has_shape3 a n0 n1 n2) g.

Definition all_values (P : R -> Prop) (g : list array3) : Prop :=
  Forall (Forall (Forall (Forall P))) g.

Definition at3 (a : array3) (i j k : nat) : R :=
  nth k (nth j (nth i a []) []) 0.

Definition at4 (g : list array3) (c i j k : nat) : R :=
  at3 (nth c g []) i j k.

(** ** Reference instances *)

(** Exact real arithmetic for the float power. *)
Definition exact_pow (x y : R) : R :=
  if Req_dec_T x 0 then 0 else Rpower x y.

Definition exact_arith : FloatArith := {| float_pow := exact_pow |}.

(** The exact power with the exponent [1 / 3] as stored. *)
Definition stored_exponent_pow (x y : R) : R :=
  exact_pow x (if Req_dec_T y (1 / 3) then stored_third else y).

Definition stored_exponent_arith : FloatArith :=
  {| float_pow := stored_exponent_pow |}.

(** A stable insertion sort of the positions by their keys. *)
Fixpoint insert_pos (ks : list R) (j : nat) (l : list nat) : list nat :=
  match l with
  | [] => [j]
  | i :: t =>
      if Rle_dec (nth j ks 0) (nth i ks 0) then j :: l
      else i :: insert_pos ks j t
  end.

Definition insertion_argsort (ks : list R) : list nat :=
  fold_right (insert_pos ks) [] (seq 0 (length ks)).

(** The cubic cell of side [a], with the discretization given as a sequence
    of three. *)
Definition cubic (a : R) (tr : string) (ha : option harmonics) : Lattice.t :=
  {| Lattice.truncation := tr;
     Lattice.basis_vectors := ((a, 0, 0), (0, a, 0), (0, 0, a));
     Lattice.discretization := [PyInt 256; PyInt 256; PyInt 256];
     Lattice.harmonics_array := ha |}.

(** A one-column harmonics array. *)
Definition origin_only : harmonics := ([0%Z], [0%Z], [0%Z]).

(** The [i]-th of [N] uniform samples of [[0, 1]], both ends included; a
    single sample sits at 0. *)
Definition unit_sample (N : Z) (i : nat) : R :=
  if (N =? 1)%Z then 0 else INR i / IZR (N - 1).

(** The entries of an array, in row-major order, and its shape read along
    the first items. *)
Fixpoint nd_items {A : Type} (a : ndarr A) : list A :=
  match a with
  | Item x => [x]
  | Axis l => flat_map nd_items l
  end.

Fixpoint nd_shape {A : Type} (a : ndarr A) : list nat :=
  match a with
  | Item _ => []
  | Axis l =>
      length l :: match l with
                  | [] => []
                  | x :: _ => nd_shape x
                  end
  end.

(** ** [dev/delete_artifacts.py] *)

Module DeleteArtifacts.

(** A job as the script reads it: [job.attributes["pipeline"]["status"]],
    ["stage"], ["name"], and ["artifacts_file"], a key that may be
    missing. *)
Record job : Type := {
  job_id : Z;
  pipeline_status : string;
  stage : string;
  name : string;
  artifacts_file : option string
}.

(** The state of the loop: the counter [jj] and the jobs whose
    [delete_artifacts()] was called, in call order. *)
Definition state : Type := (Z * list Z)%type.

(** One pass of [for i, job in enumerate(jobs)]. *)
Definition step (st : state) (j : job) : state :=
  let '(jj, deleted) := st in
  if String.eqb (pipeline_status j) "success" then
    if String.eqb (stage j) "deploy" && String.eqb (name j) "pages" then
      let jj := (jj + 1)%Z in
      if (jj >? 2)%Z then
        match artifacts_file j with
        | Some _ => (jj, deleted ++ [job_id j])
        | None => (jj, deleted)          (* except KeyError: pass *)
        end
      else (jj, deleted)
    else (jj, deleted)
  else (jj, deleted).

Definition loop (jobs : list job) : state := fold_left step jobs (0%Z, []).

(** The script, given the projects found and the jobs of each: it takes
    [projects[0]] and returns the jobs whose artifacts it deleted. *)
Definition script (projects : list (list job)) : result (list Z) :=
  match projects with
  | [] => Raise IndexError
  | jobs :: _ => OK (snd (loop jobs))
  end.

(** A successful deployment job of the pages. *)
Definition is_pages (j : job) : bool :=
  String.eqb (pipeline_status j) "success"
  && (String.eqb (stage j) "deploy" && String.eqb (name j) "pages").

Definition has_artifacts (j : job) : bool :=
  match artifacts_file j with
  | Some _ => true
  | None => false
  end.

End DeleteArtifacts.

(** Sample inputs for the statements about the remaining code. *)
Definition pages_job (id : Z) (art : option string)
  : DeleteArtifacts.job :=
  {| DeleteArtifacts.job_id := id;
     DeleteArtifacts.pipeline_status := "success";
     DeleteArtifacts.stage := "deploy";
     DeleteArtifacts.name := "pages";
     DeleteArtifacts.artifacts_file := art |}.

Definition with_discretization (L : Lattice.t) (d : list pynum)
  : Lattice.t :=
  {| Lattice.truncation := Lattice.truncation L;
     Lattice.basis_vectors := Lattice.basis_vectors L;
     Lattice.discretization := d;
     Lattice.harmonics_array := Lattice.harmonics_array L |}.

(** The reciprocal-lattice vector of a harmonic: the combination of the
    rows of [Lk] with the three indices. *)
Definition reciprocal_vector (Lk : mat3) (t : index3) : vec3 :=
  let '(k0, k1, k2) := Lk in
  let '(i0, i1, i2) := t in
  vadd (vadd (scale3 (IZR i0) k0) (scale3 (IZR i1) k1)) (scale3 (IZR i2) k2).

(** The indices squared, weighted by the squared lengths of the rows. *)
Definition axis_weight (Lk : mat3) (t : index3) : R :=
  let '(k0, k1, k2) := Lk in
  let '(i0, i1, i2) := t in
  IZR i0 ^ 2 * dot k0 k0 + IZR i1 ^ 2 * dot k1 k1 + IZR i2 ^ 2 * dot k2 k2.

(** * Properties *)

(** ** Linear algebra on 3x3 matrices *)

(** Name the nine entries of a matrix. *)
Ltac destruct_mat m :=
  let a := fresh "a" in
  let b := fresh "b" in
  let c := fresh "c" in
  destruct m as [[[[a b] c] [[? ?] ?]] [[? ?] ?]].

Lemma vec3_eq (a0 a1 a2 b0 b1 b2 : R) :
  a0 = b0 -> a1 = b1 -> a2 = b2 -> (a0, a1, a2) = (b0, b1, b2).
Proof. intros; subst; reflexivity. Qed.

Lemma det_transpose (m : mat3) : det (transpose m) = det m.
Proof. destruct_mat m; unfold det, dot, cross, transpose; ring. Qed.

(** Independent vectors have a non-zero determinant: were it zero, the rows
    of the cofactor matrix, then the 2x2 minors, would give a relation. *)
Lemma independent_det (v : triple vec3) :
  linearly_independent v -> det v <> 0.
Proof.
  destruct_mat v; unfold linearly_independent, det.
  cbn [dot cross vadd scale3].
  intros Hind Hdet.
  assert (Hcomb : forall x y z : R,
             x * a + y * r + z * r2 = 0 ->
             x * b + y * r0 + z * r3 = 0 ->
             x * c + y * r1 + z * r4 = 0 -> x = 0 /\ y = 0 /\ z = 0).
  { intros x y z E0 E1 E2. apply Hind. apply vec3_eq; assumption. }
  (* the rows of the cofactor matrix *)
  destruct (Hcomb (r0 * r4 - r1 * r3) (r3 * c - r4 * b) (b * r1 - c * r0))
    as (m1 & m2 & m3); [ nra | ring | ring | ].
  destruct (Hcomb (r1 * r2 - r * r4) (r4 * a - r2 * c) (c * r - a * r1))
    as (m4 & m5 & m6); [ ring | nra | ring | ].
  destruct (Hcomb (r * r3 - r0 * r2) (r2 * b - r3 * a) (a * r0 - b * r))
    as (m7 & m8 & m9); [ ring | ring | nra | ].
  (* every minor vanishes, so the first two vectors are proportional *)
  destruct (Hcomb r (- a) 0) as (h1 & h2 & _); [ nra | nra | nra | ].
  destruct (Hcomb r0 (- b) 0) as (h3 & h4 & _); [ nra | nra | nra | ].
  destruct (Hcomb r1 (- c) 0) as (h5 & h6 & _); [ nra | nra | nra | ].
  destruct (Hcomb 1 0 0) as (h7 & _); [ nra | nra | nra | lra ].
Qed.

Lemma det_independent (v : triple vec3) :
  det v <> 0 -> linearly_independent v.
Proof.
  destruct_mat v; unfold linearly_independent, det.
  cbn [dot cross vadd scale3].
  intros Hdet x y z E. injection E as E0 E1 E2.
  set (d := (b * r1 - c * r0) * r2 + (c * r - a * r1) * r3
            + (a * r0 - b * r) * r4) in *.
  assert (Hx : x * d = 0).
  { replace (x * d) with
      ((x * a + y * r + z * r2) * (r0 * r4 - r1 * r3)
       + (x * b + y * r0 + z * r3) * (r1 * r2 - r * r4)
       + (x * c + y * r1 + z * r4) * (r * r3 - r0 * r2))
      by (unfold d; ring).
    rewrite E0, E1, E2; ring. }
  assert (Hy : y * d = 0).
  { replace (y * d) with
      ((x * a + y * r + z * r2) * (r3 * c - r4 * b)
       + (x * b + y * r0 + z * r3) * (r4 * a - r2 * c)
       + (x * c + y * r1 + z * r4) * (r2 * b - r3 * a))
      by (unfold d; ring).
    rewrite E0, E1, E2; ring. }
  assert (Hz : z * d = 0).
  { replace (z * d) with
      ((x * a + y * r + z * r2) * (b * r1 - c * r0)
       + (x * b + y * r0 + z * r3) * (c * r - a * r1)
       + (x * c + y * r1 + z * r4) * (a * r0 - b * r))
      by (unfold d; ring).
    rewrite E0, E1, E2; ring. }
  repeat split.
  - destruct (Rmult_integral _ _ Hx); [ assumption | contradiction ].
  - destruct (Rmult_integral _ _ Hy); [ assumption | contradiction ].
  - destruct (Rmult_integral _ _ Hz); [ assumption | contradiction ].
Qed.

(** [inv] returns a left inverse whenever it returns. *)
Lemma inv_left (m n : mat3) : inv m = OK n -> matmul n m = identity3.
Proof.
  destruct_mat m; unfold inv.
  destruct (Req_dec_T _ 0) as [E | NE]; [ discriminate | ].
  intros [= <-]. revert NE.
  unfold det, matmul, transpose, identity3.
  cbn [dot cross scale3 map3 transpose]. intros NE.
  repeat (f_equal; try (field; exact NE)).
Qed.

Lemma inv_regular (m : mat3) : det m <> 0 -> exists n, inv m = OK n.
Proof.
  destruct_mat m; unfold inv; intros NE.
  destruct (Req_dec_T _ 0) as [E | _]; [ contradiction | eauto ].
Qed.

Lemma inv_singular (m : mat3) : det m = 0 -> inv m = Raise LinAlgError.
Proof.
  destruct_mat m; unfold inv; intros E.
  destruct (Req_dec_T _ 0) as [_ | NE]; [ reflexivity | contradiction ].
Qed.

Lemma reciprocal_regular (L : Lattice.t) :
  linearly_independent (Lattice.basis_vectors L) ->
  exists m, inv (Lattice.matrix L) = OK m
            /\ Lattice.reciprocal L = OK (mscale (2 * PI) (transpose m)).
Proof.
  intros Hind. apply independent_det in Hind.
  rewrite <- det_transpose in Hind.
  destruct (inv_regular _ Hind) as [m Hm].
  exists m; split; [ exact Hm | ].
  unfold Lattice.reciprocal. fold (Lattice.matrix L) in Hm.
  unfold Lattice.matrix in *. rewrite Hm. reflexivity.
Qed.

Lemma reciprocal_singular (L : Lattice.t) :
  det (Lattice.basis_vectors L) = 0 ->
  Lattice.reciprocal L = Raise LinAlgError.
Proof.
  intros E. unfold Lattice.reciprocal, Lattice.matrix.
  rewrite inv_singular; [ reflexivity | ].
  rewrite det_transpose; exact E.
Qed.

Lemma two_PI_neq0 : 2 * PI <> 0.
Proof. pose proof PI_RGT_0; lra. Qed.

(** ** Derived geometric quantities *)

Lemma scaled_dot_div (k x y z p q s : R) :
  k <> 0 -> (k * x * p + k * y * q + k * z * s) / k = x * p + y * q + z * s.
Proof. intros Hk; field; exact Hk. Qed.

(** C6: for a lattice whose three basis vectors are linearly independent,
    [reciprocal] exists, it is [2 * pi] times the transposed inverse of
    [matrix], and the transpose of [reciprocal] times [matrix], divided by
    [2 * pi], is the 3x3 identity matrix. *)
Theorem reciprocal_matrix_identity (L : Lattice.t) :
  linearly_independent (Lattice.basis_vectors L) ->
  exists m Lk,
    inv (Lattice.matrix L) = OK m
    /\ Lk = mscale (2 * PI) (transpose m)
    /\ Lattice.reciprocal L = OK Lk
    /\ mdiv (matmul (transpose Lk) (Lattice.matrix L)) (2 * PI) = identity3.
Proof.
  intros Hind.
  destruct (reciprocal_regular L Hind) as (m & Hm & Hrec).
  exists m, (mscale (2 * PI) (transpose m)).
  split; [ exact Hm | split; [ reflexivity | split; [ exact Hrec | ] ] ].
  apply inv_left in Hm. revert Hm.
  generalize (Lattice.matrix L); intros B.
  pose proof two_PI_neq0 as Hpi.
  destruct_mat m; destruct_mat B.
  unfold matmul, mdiv, mscale, identity3.
  cbn [transpose map3 scale3 dot].
  intros [= E1 E2 E3 E4 E5 E6 E7 E8 E9].
  rewrite !scaled_dot_div by exact Hpi.
  now rewrite E1, E2, E3, E4, E5, E6, E7, E8, E9.
Qed.

(** ** Arrays and the candidate cube *)

Example arange_centred : arange (-1) 2 = [-1; 0; 1]%Z.
Proof. reflexivity. Qed.

Example meshgrid_ij_flat :
  map3 (@flatten Z) (meshgrid [0; 1] [0; 1] [0; 1])%Z
  = ([0; 0; 0; 0; 1; 1; 1; 1], [0; 0; 1; 1; 0; 0; 1; 1],
     [0; 1; 0; 1; 0; 1; 0; 1])%Z.
Proof. reflexivity. Qed.

Example getitem3_wraps : getitem3 (10, 20, 30)%Z (-1) = OK 30%Z.
Proof. reflexivity. Qed.

Example getitem3_out_of_range : getitem3 (10, 20, 30)%Z 3 = Raise IndexError.
Proof. reflexivity. Qed.

Example slice_to_negative : slice_to (-1) [1; 2; 3]%Z = [1; 2]%Z.
Proof. reflexivity. Qed.

Example odd_below_values :
  odd_below 3 = 3%Z /\ odd_below 4 = 3%Z /\ odd_below 1 = 1%Z
  /\ odd_below 0 = (-1)%Z.
Proof. repeat split. Qed.

Lemma zip_with_map_same (A B C D : Type) (f : A -> B -> C) (g : D -> A)
  (h : D -> B) (l : list D) :
  zip_with f (map g l) (map h l) = map (fun x => f (g x) (h x)) l.
Proof. induction l as [| x l IH]; simpl; [ | rewrite IH ]; reflexivity. Qed.

Lemma columns_rows_of (cs : list index3) : columns (rows_of cs) = cs.
Proof.
  unfold columns, rows_of.
  induction cs as [| [[a b] c] cs IH]; simpl; [ | rewrite IH ]; reflexivity.
Qed.

Lemma flatten_mesh (f : Z -> Z -> Z -> Z) (xs ys zs : list Z) :
  flatten (map (fun x => map (fun y => map (fun z => f x y z) zs) ys) xs)
  = map (fun t => f (fst (fst t)) (snd (fst t)) (snd t)) (cube3 xs ys zs).
Proof.
  unfold flatten, cube3.
  induction xs as [| x xs IHx]; simpl; [ reflexivity | ].
  rewrite map_app, IHx. f_equal.
  clear IHx.
  induction ys as [| y ys IHy]; simpl; [ reflexivity | ].
  rewrite map_app, IHy, map_map. reflexivity.
Qed.

Lemma meshgrid_rows (xs ys zs : list Z) :
  map3 (@flatten Z) (meshgrid xs ys zs) = rows_of (cube3 xs ys zs).
Proof.
  unfold meshgrid, rows_of, map3.
  rewrite (flatten_mesh (fun x _ _ => x)), (flatten_mesh (fun _ y _ => y)),
    (flatten_mesh (fun _ _ z => z)).
  reflexivity.
Qed.

Lemma take_rows (cs : list index3) (js : list nat) :
  map3 (fun g => take g js) (rows_of cs)
  = rows_of (map (fun j => nth j cs (0, 0, 0)%Z) js).
Proof.
  unfold rows_of, map3, take. rewrite !map_map.
  repeat apply (f_equal2 pair); apply map_ext; intros j.
  - exact (map_nth (fun t : index3 => fst (fst t)) cs (0, 0, 0)%Z j).
  - exact (map_nth (fun t : index3 => snd (fst t)) cs (0, 0, 0)%Z j).
  - exact (map_nth (fun t : index3 => snd t) cs (0, 0, 0)%Z j).
Qed.

Lemma slice_to_length (A : Type) (l : list A) (n : Z) :
  n = Z.of_nat (length l) -> slice_to n l = l.
Proof.
  intros ->. unfold slice_to.
  destruct (Z.ltb_spec (Z.of_nat (length l)) 0) as [Hneg | _]; [ lia | ].
  rewrite Nat2Z.id. apply firstn_all.
Qed.

Lemma slice_rows (cs : list index3) (n : Z) :
  n = Z.of_nat (length cs) -> map3 (slice_to n) (rows_of cs) = rows_of cs.
Proof.
  intros Hn. unfold rows_of, map3.
  rewrite !slice_to_length by (rewrite length_map; exact Hn).
  reflexivity.
Qed.

Lemma Gl2_of_origin (Lk : mat3) : Gl2_of Lk (0, 0, 0)%Z = 0.
Proof.
  destruct Lk as [[k0 k1] k2]. unfold Gl2_of, pair_form. ring.
Qed.

Lemma in_arange (a b x : Z) : In x (arange a b) <-> (a <= x < b)%Z.
Proof.
  unfold arange. rewrite in_map_iff. split.
  - intros (i & <- & Hi). apply in_seq in Hi. lia.
  - intros Hx. exists (Z.to_nat (x - a)). split; [ lia | ].
    apply in_seq. lia.
Qed.

Lemma NoDup_arange (a b : Z) : NoDup (arange a b).
Proof.
  unfold arange. apply Injective_map_NoDup; [ | apply seq_NoDup ].
  intros i j Hij. lia.
Qed.

Lemma length_arange (a b : Z) : length (arange a b) = Z.to_nat (b - a).
Proof. unfold arange. now rewrite length_map, length_seq. Qed.

Lemma NoDup_flat_map_disjoint (A B : Type) (f : A -> list B) (l : list A) :
  NoDup l ->
  (forall x, In x l -> NoDup (f x)) ->
  (forall x y b, In x l -> In y l -> In b (f x) -> In b (f y) -> x = y) ->
  NoDup (flat_map f l).
Proof.
  induction 1 as [| x l Hx Hl IH]; intros Hf Hdisj; simpl.
  - constructor.
  - apply NoDup_app.
    + apply Hf; left; reflexivity.
    + apply IH.
      * intros y Hy. apply Hf; right; exact Hy.
      * intros y z b Hy Hz. apply Hdisj; right; assumption.
    + intros b Hb Hb'. apply in_flat_map in Hb' as (y & Hy & Hby).
      assert (x = y) as <-.
      { apply (Hdisj x y b); [ left; reflexivity | right; exact Hy | | ];
          assumption. }
      contradiction.
Qed.

Lemma in_cube3 (xs ys zs : list Z) (i j k : Z) :
  In (i, j, k) (cube3 xs ys zs) <-> In i xs /\ In j ys /\ In k zs.
Proof.
  unfold cube3. rewrite in_flat_map. split.
  - intros (x & Hx & Hin). apply in_flat_map in Hin as (y & Hy & Hin).
    apply in_map_iff in Hin as (z & [= <- <- <-] & Hz). auto.
  - intros (Hi & Hj & Hk). exists i; split; [ exact Hi | ].
    apply in_flat_map. exists j; split; [ exact Hj | ].
    apply in_map_iff. exists k; auto.
Qed.

Lemma NoDup_cube3 (xs ys zs : list Z) :
  NoDup xs -> NoDup ys -> NoDup zs -> NoDup (cube3 xs ys zs).
Proof.
  intros Hxs Hys Hzs. unfold cube3.
  apply NoDup_flat_map_disjoint; [ exact Hxs | | ].
  - intros x _. apply NoDup_flat_map_disjoint; [ exact Hys | | ].
    + intros y _. apply Injective_map_NoDup; [ | exact Hzs ].
      intros z z' [= E]. exact E.
    + intros y y' b _ _ Hb Hb'.
      apply in_map_iff in Hb as (z & <- & _).
      apply in_map_iff in Hb' as (z' & [= E _] & _). symmetry; exact E.
  - intros x x' b _ _ Hb Hb'.
    apply in_flat_map in Hb as (y & _ & Hb).
    apply in_map_iff in Hb as (z & <- & _).
    apply in_flat_map in Hb' as (y' & _ & Hb').
    apply in_map_iff in Hb' as (z' & [= E _ _] & _). symmetry; exact E.
Qed.

Lemma length_cube3 (xs ys zs : list Z) :
  length (cube3 xs ys zs) = (length xs * length ys * length zs)%nat.
Proof.
  unfold cube3, index3.
  induction xs as [| x xs IHx]; [ reflexivity | ].
  cbn [flat_map]. rewrite length_app, IHx.
  assert (Hslab : length (flat_map (fun y => map (fun z => (x, y, z)) zs) ys)
                  = (length ys * length zs)%nat).
  { clear IHx. induction ys as [| y ys IHy]; [ reflexivity | ].
    cbn [flat_map]. rewrite length_app, IHy, length_map. reflexivity. }
  rewrite Hslab. cbn [length]. lia.
Qed.

(** Reading a list at every position gives the list back; reading it along a
    permutation of the positions gives a permutation of it. *)
Lemma nth_all_positions (A : Type) (l : list A) (d : A) :
  map (fun j => nth j l d) (seq 0 (length l)) = l.
Proof.
  induction l as [| a l IH]; simpl; [ reflexivity | ].
  rewrite <- seq_shift, map_map. simpl. now rewrite IH.
Qed.

Lemma reindex_permutation (A : Type) (l : list A) (d : A) (js : list nat) :
  Permutation js (seq 0 (length l)) ->
  Permutation (map (fun j => nth j l d) js) l.
Proof.
  intros Hjs.
  apply Permutation_trans with (map (fun j => nth j l d) (seq 0 (length l))).
  - apply Permutation_map. exact Hjs.
  - rewrite nth_all_positions. apply Permutation_refl.
Qed.

Lemma range_loop : range (-1) 2 = [-1; 0; 1]%Z.
Proof. reflexivity. Qed.

Lemma getitem3_m1 (A : Type) (a b c : A) : getitem3 (a, b, c) (-1) = OK c.
Proof. reflexivity. Qed.

Lemma getitem3_0 (A : Type) (a b c : A) : getitem3 (a, b, c) 0 = OK a.
Proof. reflexivity. Qed.

Lemma getitem3_1 (A : Type) (a b c : A) : getitem3 (a, b, c) 1 = OK b.
Proof. reflexivity. Qed.

Lemma getitem3_2 (A : Type) (a b c : A) : getitem3 (a, b, c) 2 = OK c.
Proof. reflexivity. Qed.

(** The loop computes, position by position, the quadratic form of the
    candidate at that position. *)
Lemma Gl2_loop_rows (Lk : mat3) (cs : list index3) :
  Gl2_loop (rows_of cs) (map3 norm Lk) Lk = OK (Array (map (Gl2_of Lk) cs)).
Proof.
  destruct Lk as [[k0 k1] k2].
  unfold Gl2_loop. rewrite range_loop. cbn [fold_left bind].
  unfold Gl2_term, rows_of, map3.
  change (-1 + 1)%Z with 0%Z; change (0 + 1)%Z with 1%Z;
    change (1 + 1)%Z with 2%Z.
  rewrite !getitem3_m1, !getitem3_0, !getitem3_1, !getitem3_2.
  cbn [bind nd_add].
  unfold arr_add, arr_fmul, arr_sq, arr_mul, arr_kmul.
  repeat (rewrite map_map || rewrite zip_with_map_same).
  do 2 f_equal. apply map_ext. intros [[i0 i1] i2].
  unfold Gl2_of, pair_form. cbn [fst snd].
  rewrite !mult_IZR, !Z.pow_2_r, !mult_IZR. ring.
Qed.

(** ** The reference sort meets the contract of [argsort] *)

Lemma insert_pos_perm (ks : list R) (j : nat) (l : list nat) :
  Permutation (insert_pos ks j l) (j :: l).
Proof.
  induction l as [| i t IH]; simpl; [ apply Permutation_refl | ].
  destruct (Rle_dec _ _); [ apply Permutation_refl | ].
  apply Permutation_trans with (i :: j :: t).
  - apply perm_skip. exact IH.
  - apply perm_swap.
Qed.

Lemma insertion_argsort_perm (ks : list R) :
  Permutation (insertion_argsort ks) (seq 0 (length ks)).
Proof.
  unfold insertion_argsort.
  induction (seq 0 (length ks)) as [| j s IH]; simpl; [ constructor | ].
  apply Permutation_trans with (j :: fold_right (insert_pos ks) [] s).
  - apply insert_pos_perm.
  - apply perm_skip. exact IH.
Qed.

Lemma insert_pos_sorted (ks : list R) (j : nat) (l : list nat) :
  Sorted Rle (map (fun i => nth i ks 0) l) ->
  Sorted Rle (map (fun i => nth i ks 0) (insert_pos ks j l)).
Proof.
  induction l as [| i t IH]; simpl; intros Hs.
  - repeat constructor.
  - destruct (Rle_dec _ _) as [Hle | Hgt]; simpl.
    + constructor; [ exact Hs | constructor; exact Hle ].
    + inversion Hs as [| ? ? Hst Hhd]; subst.
      constructor; [ apply IH; exact Hst | ].
      destruct t as [| i' t']; simpl.
      * constructor. lra.
      * destruct (Rle_dec _ _); simpl; constructor.
        -- lra.
        -- inversion Hhd; assumption.
Qed.

Lemma insertion_argsort_sorted (ks : list R) :
  Sorted Rle (map (fun j => nth j ks 0) (insertion_argsort ks)).
Proof.
  unfold insertion_argsort.
  induction (seq 0 (length ks)) as [| j s IH]; simpl; [ constructor | ].
  apply insert_pos_sorted. exact IH.
Qed.

Definition reference_backend : Backend :=
  {| argsort := insertion_argsort;
     argsort_perm := insertion_argsort_perm;
     argsort_sorted := insertion_argsort_sorted |}.

(** ** The truncated cube root *)

Lemma trunc_IZR (z : Z) : trunc (IZR z) = z.
Proof.
  unfold trunc. destruct (Rle_dec 0 (IZR z)).
  - apply Zfloor_eq. lra.
  - unfold Zceil. rewrite <- opp_IZR.
    rewrite (Zfloor_eq (- z) (IZR (- z))) by lra. lia.
Qed.

Lemma Rpower_third_cube (x : R) : 0 < x -> Rpower (x ^ 3) (1 / 3) = x.
Proof.
  intros Hx.
  rewrite <- (Rpower_pow 3 x Hx), Rpower_mult.
  replace (INR 3 * (1 / 3)) with 1 by (simpl; field).
  apply Rpower_1. exact Hx.
Qed.

(** With exact arithmetic, [int(n ** (1 / 3))] is the integer part of the
    cube root. *)
Lemma trunc_exact_cbrt (n r : Z) :
  (1 <= n)%Z -> floor_cbrt n r -> trunc (exact_pow (IZR n) (1 / 3)) = r.
Proof.
  intros Hn (Hr0 & Hlo & Hhi).
  assert (Hr1 : (1 <= r)%Z).
  { destruct (Z.eq_dec r 0) as [-> | ]; [ simpl in Hhi | ]; lia. }
  assert (Hn' : 0 < IZR n) by (apply IZR_lt; lia).
  assert (Hr' : 0 < IZR r) by (apply IZR_lt; lia).
  unfold exact_pow. destruct (Req_dec_T (IZR n) 0) as [E | _]; [ lra | ].
  assert (Hbounds : IZR r <= Rpower (IZR n) (1 / 3) < IZR r + 1).
  { split.
    - rewrite <- (Rpower_third_cube Hr') at 1.
      apply Rle_Rpower_l; [ lra | ]. split; [ apply pow_lt; exact Hr' | ].
      rewrite (pow_IZR r 3). apply IZR_le. exact Hlo.
    - rewrite <- plus_IZR.
      rewrite <- (@Rpower_third_cube (IZR (r + 1))) by (apply IZR_lt; lia).
      apply Rlt_Rpower_l; [ lra | ]. split; [ exact Hn' | ].
      rewrite (pow_IZR (r + 1) 3). apply IZR_lt. exact Hhi. }
  unfold trunc. destruct (Rle_dec 0 _) as [_ | Hneg]; [ | lra ].
  apply Zfloor_eq. exact Hbounds.
Qed.

(** ** A float power accurate to one unit in the last place *)

Lemma ln_monotone (x y : R) : 0 < x -> x <= y -> ln x <= ln y.
Proof.
  intros Hx [Hlt | ->]; [ | lra ].
  apply Rlt_le, ln_increasing; assumption.
Qed.

Lemma ln_one_plus (u : R) : -1 < u -> ln (1 + u) <= u.
Proof.
  intros Hu. rewrite <- (ln_exp u) at 2.
  apply ln_monotone; [ lra | apply exp_ineq1_le ].
Qed.

Lemma Rabs_le_bounds (a b : R) : Rabs a <= b -> - b <= a <= b.
Proof. unfold Rabs. destruct (Rcase_abs a); lra. Qed.

Lemma pow2_52 : 2 ^ 52 = 4503599627370496.
Proof. ring. Qed.

Lemma pow2_53 : 2 ^ 53 = 9007199254740992.
Proof. ring. Qed.

Lemma ln_65536 : 8 < ln 65536.
Proof.
  replace 65536 with (2 ^ 16) by ring.
  rewrite ln_pow by lra. pose proof ln_lt_2 as H2.
  simpl INR. lra.
Qed.

Lemma pow_lt_base (w z : R) (n : nat) :
  0 <= w < z -> (0 < n)%nat -> w ^ n < z ^ n.
Proof.
  intros [Hw Hlt] Hn. destruct n as [| n]; [ lia | ]. clear Hn.
  induction n as [| n IH]; [ simpl; lra | ].
  change (w * w ^ S n < z * z ^ S n).
  assert (H0 : 0 <= w ^ S n) by (apply pow_le; exact Hw).
  nra.
Qed.

(** The tenth power decides a comparison with a power of exponent
    [3 / 10]. *)
Lemma Rpower_three_tenths (b z : R) :
  0 < b -> 0 <= z -> z ^ 10 <= b ^ 3 -> z <= Rpower b (3 / 10).
Proof.
  intros Hb Hz Hpow.
  set (w := Rpower b (3 / 10)).
  assert (Hw : 0 < w) by apply exp_pos.
  assert (Hw10 : w ^ 10 = b ^ 3).
  { rewrite <- (Rpower_pow 10 w Hw). unfold w. rewrite Rpower_mult.
    replace (3 / 10 * INR 10) with (INR 3) by (simpl; lra).
    apply Rpower_pow. exact Hb. }
  destruct (Rle_lt_dec z w) as [Hle | Hlt]; [ exact Hle | exfalso ].
  assert (Hlt10 : w ^ 10 < z ^ 10).
  { apply pow_lt_base; [ lra | lia ]. }
  lra.
Qed.

(** The float cube root of an integer [n] below the cube of [K] is below
    [K]: the stored exponent lies below a third by more than the two
    roundings can make up for. *)
Lemma accurate_root_below (n K : Z) (x q : R) :
  (2 <= K)%Z -> (1 <= n < K ^ 3)%Z ->
  Rabs (x - IZR n) <= IZR n / 2 ^ 53 ->
  Rabs (q - Rpower x stored_third) <= Rpower x stored_third / 2 ^ 52 ->
  q < IZR K.
Proof.
  intros HK [Hn1 HnK] Hx Hq.
  rewrite pow2_53 in Hx. rewrite pow2_52 in Hq.
  assert (Hn : 1 <= IZR n) by (apply IZR_le; exact Hn1).
  assert (HK2 : 2 <= IZR K) by (apply IZR_le; exact HK).
  apply Rabs_le_bounds in Hx, Hq.
  set (p := Rpower x stored_third) in *.
  assert (Hp : 0 < p) by apply exp_pos.
  assert (Hx0 : 0 < x) by lra.
  destruct (Rlt_le_dec q (IZR K)) as [Hlt | Hge]; [ exact Hlt | exfalso ].
  set (c := / IZR K ^ 3).
  assert (HK3 : 8 <= IZR K ^ 3).
  { replace 8 with (2 ^ 3) by ring. apply pow_incr. lra. }
  assert (Hc : 0 < c <= / 8).
  { unfold c. split; [ apply Rinv_0_lt_compat; lra | ].
    apply Rinv_le_contravar; lra. }
  assert (HlnK0 : 0 <= ln (IZR K)).
  { rewrite <- ln_1. apply ln_monotone; lra. }
  assert (Hlnn : ln (IZR n) <= 3 * ln (IZR K) - c).
  { assert (Hle : IZR n <= IZR K ^ 3 * (1 + - c)).
    { replace (IZR K ^ 3 * (1 + - c)) with (IZR K ^ 3 - 1)
        by (unfold c; field; lra).
      rewrite (pow_IZR K 3), <- minus_IZR. apply IZR_le.
      change (Z.of_nat 3) with 3%Z. lia. }
    apply ln_monotone in Hle; [ | lra ].
    rewrite ln_mult, ln_pow in Hle by lra.
    pose proof (@ln_one_plus (- c)) as Hc'. simpl INR in Hle. lra. }
  assert (Hlnx : ln x <= ln (IZR n) + / 9007199254740992).
  { assert (Hle : x <= IZR n * (1 + / 9007199254740992)) by lra.
    apply ln_monotone in Hle; [ | exact Hx0 ].
    rewrite ln_mult in Hle by lra.
    pose proof (@ln_one_plus (/ 9007199254740992)) as Hu. lra. }
  assert (HlnK : ln (IZR K) <= stored_third * ln x + / 4503599627370496).
  { assert (Hle : IZR K <= p * (1 + / 4503599627370496)) by lra.
    apply ln_monotone in Hle; [ | lra ].
    rewrite ln_mult in Hle by lra.
    unfold p in Hle. rewrite ln_Rpower in Hle.
    pose proof (@ln_one_plus (/ 4503599627370496)) as Hu. lra. }
  unfold stored_third in HlnK.
  destruct (Rle_lt_dec (IZR K) 65536) as [Hsmall | Hlarge].
  - assert (Hc48 : / 281474976710656 <= c).
    { unfold c. apply Rinv_le_contravar; [ lra | ].
      replace 281474976710656 with (65536 ^ 3) by ring.
      apply pow_incr. lra. }
    lra.
  - assert (Hln : 8 < ln (IZR K)).
    { apply Rlt_trans with (ln 65536); [ exact ln_65536 | ].
      apply ln_increasing; lra. }
    lra.
Qed.

(** The float cube root of an integer from 2 on is at least 1. *)
Lemma accurate_root_ge_1 (n : Z) (x q : R) :
  (2 <= n)%Z ->
  Rabs (x - IZR n) <= IZR n / 2 ^ 53 ->
  Rabs (q - Rpower x stored_third) <= Rpower x stored_third / 2 ^ 52 ->
  1 <= q.
Proof.
  intros Hn Hx Hq. rewrite pow2_53 in Hx. rewrite pow2_52 in Hq.
  assert (Hn' : 2 <= IZR n) by (apply IZR_le; exact Hn).
  apply Rabs_le_bounds in Hx, Hq.
  assert (Hz : 6 / 5 <= Rpower (19 / 10) (3 / 10)).
  { apply Rpower_three_tenths; lra. }
  assert (Hp : Rpower (19 / 10) (3 / 10) <= Rpower x stored_third).
  { apply Rle_trans with (Rpower (19 / 10) stored_third).
    - apply Rle_Rpower; [ lra | unfold stored_third; lra ].
    - apply Rle_Rpower_l; [ unfold stored_third; lra | lra ]. }
  lra.
Qed.


Section AccurateFloatPower.

Context {FA : FloatArith} {AP : AccuratePow FA}.

(** With such a float power, [int(n ** (1 / 3))] is at least one and its
    cube is at most [n], for every integer [n >= 1]. *)
Lemma accurate_trunc (n : Z) :
  (1 <= n)%Z ->
  (1 <= trunc (float_pow (IZR n) (1 / 3)))%Z
  /\ (trunc (float_pow (IZR n) (1 / 3)) ^ 3 <= n)%Z.
Proof.
  intros Hn. destruct (Z.eq_dec n 1) as [-> | Hne].
  - rewrite pow_one. rewrite (trunc_IZR 1). split; lia.
  - destruct (pow_accurate (n := n)) as (x & Hx & Hq); [ lia | ].
    set (q := float_pow (IZR n) (1 / 3)) in *.
    assert (Hq1 : 1 <= q)
      by (apply (@accurate_root_ge_1 n x); [ lia | | ]; assumption).
    assert (Hr : trunc q = Zfloor q).
    { unfold trunc. destruct (Rle_dec 0 q); [ reflexivity | lra ]. }
    rewrite Hr. pose proof (Zfloor_bound q) as [Hlo _].
    assert (Hr1 : (1 <= Zfloor q)%Z) by (apply Zfloor_lub; exact Hq1).
    split; [ exact Hr1 | ].
    destruct (Z_le_gt_dec (Zfloor q ^ 3) n) as [Hle | Hgt]; [ exact Hle | ].
    exfalso.
    assert (Hr2 : (2 <= Zfloor q)%Z).
    { destruct (Z.eq_dec (Zfloor q) 1) as [E | NE]; [ | lia ].
      rewrite E in Hgt. lia. }
    pose proof (@accurate_root_below n (Zfloor q) x q Hr2 ltac:(lia) Hx Hq).
    lra.
Qed.


End AccurateFloatPower.

(** ** Parallelogrammic truncation *)

Lemma NGroot_odd_below (r : Z) :
  (if (r mod 2 =? 0)%Z then (r - 1)%Z else r) = odd_below r.
Proof. unfold odd_below. now rewrite Zeven_mod. Qed.

Lemma odd_below_props (r : Z) :
  (1 <= r)%Z -> (1 <= odd_below r <= r)%Z /\ Z.odd (odd_below r) = true.
Proof.
  intros Hr. unfold odd_below. destruct (Z.even r) eqn:E.
  - apply Z.even_spec in E as [k ->]. split; [ lia | ].
    apply Z.odd_spec. exists (k - 1)%Z. lia.
  - split; [ lia | ]. now rewrite <- Z.negb_even, E.
Qed.

Lemma length_candidates (NGroot : Z) :
  (1 <= NGroot)%Z ->
  let xG := arange (- (NGroot / 2)) (NGroot - NGroot / 2) in
  Z.of_nat (length (cube3 xG xG xG)) = (NGroot ^ 3)%Z.
Proof.
  intros HN xG. rewrite length_cube3. unfold xG. rewrite length_arange.
  replace (NGroot - NGroot / 2 - - (NGroot / 2))%Z with NGroot by lia.
  rewrite !Nat2Z.inj_mul, Z2Nat.id by lia. ring.
Qed.

Section ParallelogrammicTruncation.

Context `{FloatArith} `{Backend}.

(** A power that is returned is the float power of a finite base that is
    not negative. *)
Lemma py_pow_finite (nh : pynum) (y p : R) :
  py_pow nh y = OK p ->
  0 <= to_float nh /\ p = float_pow (to_float nh) y.
Proof.
  unfold py_pow. destruct nh as [n | x | b |]; try discriminate.
  all: cbv zeta; destruct (Rlt_dec _ 0) as [Hneg | Hpos];
    [ destruct (Rle_dec _ _); discriminate | ].
  all: intros [= <-]; split; [ now apply Rnot_lt_le | reflexivity ].
Qed.

Lemma py_pow_int (n : Z) (y : R) :
  (0 <= n)%Z -> py_pow (PyInt n) y = OK (float_pow (IZR n) y).
Proof.
  intros Hn. unfold py_pow, to_float.
  destruct (Rlt_dec (IZR n) 0) as [Hneg | _]; [ | reflexivity ].
  apply IZR_le in Hn. lra.
Qed.

(** For a number of harmonics whose power is returned and truncates to a
    cube root [r] of at least one, the function returns the whole cube of
    candidates, reordered so that the quadratic form ascends. *)
Lemma parallelogramic_truncation_cube (nh : pynum) (Lk : mat3) (p : R)
  (r : Z) :
  py_pow nh (1 / 3) = OK p ->
  trunc p = r ->
  (1 <= r)%Z ->
  let NGroot := odd_below r in
  let xG := arange (- (NGroot / 2)) (NGroot - NGroot / 2) in
  exists cs,
    _parallelogramic_truncation nh Lk = OK (rows_of cs, (NGroot ^ 3)%Z)
    /\ Permutation cs (cube3 xG xG xG)
    /\ Sorted Rle (map (Gl2_of Lk) cs).
Proof.
  intros Hp Hr Hr1 NGroot xG.
  destruct (odd_below_props Hr1) as [HN _]. fold NGroot in HN.
  set (cands := cube3 xG xG xG).
  set (js := argsort (map (Gl2_of Lk) cands)).
  set (cs := map (fun j => nth j cands (0, 0, 0)%Z) js).
  assert (Hperm : Permutation cs cands).
  { apply reindex_permutation. unfold js.
    rewrite <- (length_map (Gl2_of Lk) cands). apply argsort_perm. }
  exists cs. split; [ | split; [ exact Hperm | ] ].
  - unfold _parallelogramic_truncation. rewrite Hp.
    cbn [bind]. rewrite Hr, NGroot_odd_below. fold NGroot. fold xG.
    rewrite meshgrid_rows. fold cands.
    rewrite Gl2_loop_rows. cbn [bind argsort_nd]. fold js.
    rewrite take_rows. fold cs.
    rewrite slice_rows; [ reflexivity | ].
    rewrite (Permutation_length Hperm). symmetry.
    apply length_candidates. lia.
  - unfold cs. rewrite map_map.
    erewrite map_ext; [ apply (argsort_sorted (map (Gl2_of Lk) cands)) | ].
    intros j. cbv beta.
    rewrite <- (Gl2_of_origin Lk) at 1.
    symmetry. apply (map_nth (Gl2_of Lk)).
Qed.

(** When the truncated cube root is below one there is no candidate, and the
    empty array is returned. *)
Lemma parallelogramic_truncation_empty (nh : pynum) (Lk : mat3) (p : R)
  (r : Z) :
  py_pow nh (1 / 3) = OK p ->
  trunc p = r ->
  (r < 1)%Z ->
  _parallelogramic_truncation nh Lk = OK (rows_of [], (odd_below r ^ 3)%Z).
Proof.
  intros Hp Hr Hr0.
  assert (HN : (odd_below r <= 0)%Z).
  { unfold odd_below. destruct (Z.even r); lia. }
  unfold _parallelogramic_truncation. rewrite Hp.
  cbn [bind]. rewrite Hr, NGroot_odd_below.
  set (NGroot := odd_below r) in *.
  assert (HxG : arange (- (NGroot / 2)) (NGroot - NGroot / 2) = []).
  { unfold arange.
    replace (Z.to_nat (NGroot - NGroot / 2 - - (NGroot / 2))) with 0%nat
      by lia.
    reflexivity. }
  rewrite HxG, meshgrid_rows. change (cube3 [] [] []) with (@nil index3).
  rewrite Gl2_loop_rows. cbn [bind argsort_nd map].
  assert (Hjs : argsort [] = []).
  { apply Permutation_nil, Permutation_sym. exact (argsort_perm []). }
  rewrite Hjs, take_rows. cbn [map].
  unfold rows_of, map3, slice_to. cbn [map].
  destruct (NGroot ^ 3 <? 0)%Z; rewrite !firstn_nil; reflexivity.
Qed.

(** A call that returns has computed the power. *)
Lemma parallelogramic_truncation_pow (nh : pynum) (Lk : mat3)
  (G : harmonics) (m : Z) :
  _parallelogramic_truncation nh Lk = OK (G, m) ->
  exists p, py_pow nh (1 / 3) = OK p.
Proof.
  unfold _parallelogramic_truncation.
  destruct (py_pow nh (1 / 3)) as [p | e]; [ eauto | discriminate ].
Qed.

(** Whatever the truncated cube root is, the columns returned ascend in the
    quadratic form. *)
Lemma parallelogramic_truncation_sorted (nh : pynum) (Lk : mat3)
  (G : harmonics) (m : Z) :
  _parallelogramic_truncation nh Lk = OK (G, m) ->
  Sorted Rle (map (Gl2_of Lk) (columns G)).
Proof.
  intros Hret.
  destruct (parallelogramic_truncation_pow nh Lk Hret) as [p Hp].
  destruct (Z_lt_le_dec (trunc p) 1) as [Hr | Hr].
  - rewrite (parallelogramic_truncation_empty nh Lk Hp eq_refl Hr) in Hret.
    injection Hret as <- _. constructor.
  - destruct (parallelogramic_truncation_cube nh Lk Hp eq_refl Hr)
      as (cs & Hcs & _ & Hsorted).
    rewrite Hcs in Hret. injection Hret as <- _.
    rewrite columns_rows_of. exact Hsorted.
Qed.

End ParallelogrammicTruncation.

(** ** [get_harmonics] *)

Lemma is_integral_int (n : Z) : is_integral (PyInt n) = OK true.
Proof. unfold is_integral. cbn. now rewrite Z.eqb_refl. Qed.

Section GetHarmonics.

Context `{FloatArith} `{Backend}.

Lemma get_harmonics_preset (L : Lattice.t) (a : harmonics) (nh : pynum) :
  Lattice.harmonics_array L = Some a ->
  Lattice.get_harmonics L nh = OK (a, ncols a).
Proof. intros Ha. unfold Lattice.get_harmonics. now rewrite Ha. Qed.

Lemma get_harmonics_not_integral (L : Lattice.t) (nh : pynum) :
  Lattice.harmonics_array L = None ->
  is_integral nh = OK false ->
  Lattice.get_harmonics L nh = Raise ValueError.
Proof.
  intros Ha Hnh. unfold Lattice.get_harmonics. now rewrite Ha, Hnh.
Qed.

(** [int(nh)] comes first: what it raises, [get_harmonics] raises. *)
Lemma get_harmonics_int_error (L : Lattice.t) (nh : pynum) (e : exn) :
  Lattice.harmonics_array L = None ->
  is_integral nh = Raise e ->
  Lattice.get_harmonics L nh = Raise e.
Proof.
  intros Ha Hnh. unfold Lattice.get_harmonics. now rewrite Ha, Hnh.
Qed.

Lemma get_harmonics_parallelogrammic (L : Lattice.t) (nh : pynum) :
  Lattice.truncation L = "parallelogrammic"%string ->
  Lattice.harmonics_array L = None ->
  is_integral nh = OK true ->
  Lattice.get_harmonics L nh
  = (Lk <- Lattice.reciprocal L ;; _parallelogramic_truncation nh Lk).
Proof.
  intros Htr Ha Hnh. unfold Lattice.get_harmonics.
  now rewrite Ha, Hnh, Htr.
Qed.

Lemma get_harmonics_spherical (L : Lattice.t) (nh : pynum) :
  Lattice.truncation L = "spherical"%string ->
  Lattice.harmonics_array L = None ->
  is_integral nh = OK true ->
  Lattice.get_harmonics L nh
  = (Lk <- Lattice.reciprocal L ;; Raise NotImplementedError).
Proof.
  intros Htr Ha Hnh. unfold Lattice.get_harmonics.
  now rewrite Ha, Hnh, Htr.
Qed.

(** Without harmonics array, a call that returns has passed the test on
    [nh]. *)
Lemma get_harmonics_integral (L : Lattice.t) (nh : pynum) (G : harmonics)
  (m : Z) :
  Lattice.harmonics_array L = None ->
  Lattice.get_harmonics L nh = OK (G, m) ->
  is_integral nh = OK true.
Proof.
  intros Ha Hret.
  destruct (is_integral nh) as [[|] | e] eqn:Hnh; [ reflexivity | | ].
  - rewrite (get_harmonics_not_integral L nh Ha Hnh) in Hret. discriminate.
  - rewrite (get_harmonics_int_error L nh Ha Hnh) in Hret. discriminate.
Qed.

End GetHarmonics.

(** ** Reference lattices *)

Lemma cubic_independent (a : R) (tr : string) (ha : option harmonics) :
  a <> 0 -> linearly_independent (Lattice.basis_vectors (cubic a tr ha)).
Proof.
  intros Ha. apply det_independent.
  unfold cubic, det. cbn [Lattice.basis_vectors dot cross].
  replace ((0 * 0 - 0 * a) * 0 + (0 * 0 - a * 0) * 0 + (a * a - 0 * 0) * a)
    with (a * a * a) by ring.
  repeat apply Rmult_integral_contrapositive_currified; exact Ha.
Qed.

(** The cubic cell of side [2 * pi] has the identity as reciprocal basis. *)
Lemma reciprocal_cubic_2pi (tr : string) (ha : option harmonics) :
  Lattice.reciprocal (cubic (2 * PI) tr ha) = OK identity3.
Proof.
  pose proof two_PI_neq0 as Hpi.
  destruct (reciprocal_regular (cubic (2 * PI) tr ha)
              (cubic_independent tr ha Hpi)) as (m & Hm & ->).
  f_equal. revert Hm.
  unfold Lattice.matrix, cubic, inv.
  cbn [Lattice.basis_vectors transpose].
  destruct (Req_dec_T _ 0) as [E | NE]; [ discriminate | ].
  intros [= <-].
  unfold mscale, identity3, det in *.
  cbn [transpose scale3 cross dot map3] in *.
  repeat apply (f_equal2 pair); field; lra.
Qed.

Lemma orthonormal_identity3 : orthonormal identity3.
Proof. unfold orthonormal, identity3, dot. repeat split; ring. Qed.

(** ** Volume *)

Lemma norm0_abs (x : R) : norm0 x = Rabs x.
Proof. unfold norm0. fold (Rsqr x). apply sqrt_Rsqr_abs. Qed.

Lemma triple_product_cyclic (v0 v1 v2 : vec3) :
  dot (cross v1 v2) v0 = dot (cross v0 v1) v2.
Proof.
  destruct v0 as [[? ?] ?], v1 as [[? ?] ?], v2 as [[? ?] ?].
  unfold dot, cross. ring.
Qed.

Lemma volume_eq (L : Lattice.t) (v0 v1 v2 : vec3) :
  Lattice.basis_vectors L = (v0, v1, v2) ->
  Lattice.volume L = OK (Rabs (dot (cross v0 v1) v2)).
Proof.
  intros Hv. unfold Lattice.volume. rewrite Hv.
  rewrite getitem3_0, getitem3_1, getitem3_2. cbn [bind].
  now rewrite norm0_abs.
Qed.

(** For basis vectors that hold floats, [volume] is the absolute value of
    the scalar triple product [cross(v0, v1) . v2], and does not change when
    the three basis vectors are permuted cyclically. *)
Lemma volume_triple_product (L : Lattice.t) :
  let '(v0, v1, v2) := Lattice.basis_vectors L in
  Lattice.volume L = OK (Rabs (dot (cross v0 v1) v2))
  /\ Lattice.volume (with_basis L (v1, v2, v0)) = Lattice.volume L
  /\ Lattice.volume (with_basis L (v2, v0, v1)) = Lattice.volume L.
Proof.
  destruct (Lattice.basis_vectors L) as [[v0 v1] v2] eqn:Hv.
  rewrite (volume_eq L Hv).
  rewrite (@volume_eq (with_basis L (v1, v2, v0)) v1 v2 v0 eq_refl).
  rewrite (@volume_eq (with_basis L (v2, v0, v1)) v2 v0 v1 eq_refl).
  repeat split.
  - now rewrite triple_product_cyclic.
  - now do 2 rewrite triple_product_cyclic.
Qed.

(** *** Basis vectors given as Python ints *)

Lemma wrap64_mod (z : Z) : (wrap64 z mod 2 ^ 64 = z mod 2 ^ 64)%Z.
Proof.
  unfold wrap64. rewrite Zminus_mod_idemp_l. f_equal. lia.
Qed.

Lemma wrap64_eq (a b : Z) :
  (a mod 2 ^ 64 = b mod 2 ^ 64)%Z -> wrap64 a = wrap64 b.
Proof.
  intros E. unfold wrap64. f_equal.
  rewrite (Z.add_mod a), (Z.add_mod b), E by lia. reflexivity.
Qed.

Lemma wrap64_range (z : Z) : (- 2 ^ 63 <= wrap64 z < 2 ^ 63)%Z.
Proof.
  unfold wrap64.
  pose proof (Z.mod_pos_bound (z + 2 ^ 63) (2 ^ 64)) as Hb. lia.
Qed.

Lemma wrap64_small (z : Z) : (- 2 ^ 63 <= z < 2 ^ 63)%Z -> wrap64 z = z.
Proof.
  intros Hz. unfold wrap64. rewrite Z.mod_small by lia. lia.
Qed.

Lemma wrap64_mul (a b : Z) : wrap64 (wrap64 a * wrap64 b) = wrap64 (a * b).
Proof.
  apply wrap64_eq.
  rewrite Z.mul_mod, !wrap64_mod, <- Z.mul_mod by lia. reflexivity.
Qed.

Lemma wrap64_mul_l (a b : Z) : wrap64 (wrap64 a * b) = wrap64 (a * b).
Proof.
  apply wrap64_eq.
  rewrite Z.mul_mod, wrap64_mod, <- Z.mul_mod by lia. reflexivity.
Qed.

Lemma wrap64_add (a b : Z) : wrap64 (wrap64 a + wrap64 b) = wrap64 (a + b).
Proof.
  apply wrap64_eq.
  rewrite Z.add_mod, !wrap64_mod, <- Z.add_mod by lia. reflexivity.
Qed.

Lemma wrap64_sub (a b : Z) : wrap64 (wrap64 a - wrap64 b) = wrap64 (a - b).
Proof.
  apply wrap64_eq.
  rewrite Zminus_mod, !wrap64_mod, <- Zminus_mod. reflexivity.
Qed.

(** On [int64] arrays the code computes the triple product modulo
    [2 ^ 64]. *)
Lemma dot64_cross64 (a b c : triple Z) :
  dot64 (cross64 a b) c = wrap64 (triple_product a b c).
Proof.
  destruct a as [[a0 a1] a2], b as [[b0 b1] b2], c as [[c0 c1] c2].
  unfold dot64, cross64, add64, sub64, mul64, triple_product.
  rewrite !wrap64_sub, !wrap64_mul_l.
  rewrite (wrap64_add (_ * c0) (_ * c1)), wrap64_add.
  reflexivity.
Qed.

Lemma volume_int64_eq (v0 v1 v2 : triple Z) :
  Lattice.volume_int64 (v0, v1, v2)
  = OK (IZR (Z.abs (wrap64 (triple_product v0 v1 v2)))).
Proof.
  unfold Lattice.volume_int64.
  rewrite getitem3_0, getitem3_1, getitem3_2. cbn [bind].
  now rewrite norm0_abs, dot64_cross64, abs_IZR.
Qed.

Lemma wrap64_opp_abs (z : Z) : Z.abs (wrap64 (- z)) = Z.abs (wrap64 z).
Proof.
  pose proof (wrap64_range z) as Hr.
  assert (E : wrap64 (- z) = wrap64 (- wrap64 z)).
  { apply wrap64_eq. rewrite <- (Z.sub_0_l z), <- (Z.sub_0_l (wrap64 z)).
    rewrite Zminus_mod, (Zminus_mod 0 (wrap64 z)), wrap64_mod.
    reflexivity. }
  rewrite E. destruct (Z.eq_dec (wrap64 z) (- 2 ^ 63)) as [Hmin | Hne].
  - rewrite Hmin. reflexivity.
  - rewrite wrap64_small by lia. apply Z.abs_opp.
Qed.

(** C7, as the code has it: for the cubic cell of side [4194304 = 2 ^ 22]
    given by Python ints, which NumPy stores as [int64], the triple product
    [2 ^ 66] wraps around to 0 and [volume] returns 0, whereas the absolute
    value of the triple product of these vectors is [2 ^ 66], which is the
    volume of the same cell when it is given by floats. *)
Theorem volume_int64_wraps :
  in_int64 4194304
  /\ Lattice.volume_int64
       ((4194304, 0, 0), (0, 4194304, 0), (0, 0, 4194304))%Z = OK 0
  /\ Rabs (dot (cross (4194304, 0, 0) (0, 4194304, 0)) (0, 0, 4194304))
     = 2 ^ 66
  /\ Lattice.volume (cubic 4194304 "parallelogrammic" None) = OK (2 ^ 66).
Proof.
  assert (Hprod : dot (cross (4194304, 0, 0) (0, 4194304, 0))
                      (0, 0, 4194304) = 2 ^ 66).
  { unfold dot, cross. ring. }
  assert (Habs : Rabs (2 ^ 66) = 2 ^ 66).
  { apply Rabs_pos_eq, pow_le. lra. }
  split; [ unfold in_int64; lia | split; [ | split ] ].
  - rewrite volume_int64_eq. do 2 f_equal.
  - now rewrite Hprod.
  - rewrite (@volume_eq (cubic 4194304 "parallelogrammic" None)
               (4194304, 0, 0) (0, 4194304, 0) (0, 0, 4194304) eq_refl).
    now rewrite Hprod, Habs.
Qed.

(** ** Construction *)

(** C5, as the code has it: a scalar [discretization] is stored as a pair,
    not as the triple announced by the docstring, and [unit_grid] cannot
    unpack it. *)
Theorem scalar_discretization_pair (bv : triple vec3) (d : pynum)
  (ha : option harmonics) :
  (exists L,
      Lattice.__init__ bv (DScalar d) "parallelogrammic" ha = OK L
      /\ Lattice.discretization L = [d; d]
      /\ Lattice.discretization L <> [d; d; d]
      /\ Lattice.unit_grid L = Raise ValueError)
  /\ (exists L,
        Lattice.__init__ bv Lattice.default_discretization "parallelogrammic"
          ha = OK L
        /\ Lattice.discretization L = [PyInt 256; PyInt 256]).
Proof.
  split.
  - eexists. split; [ reflexivity | ].
    cbn [Lattice.discretization]. repeat split. discriminate.
  - eexists. split; reflexivity.
Qed.

(** C8: the constructor raises [ValueError] exactly when the truncation
    string is neither "spherical" nor "parallelogrammic" (so for
    "hexagonal"); otherwise it stores its arguments whatever the basis
    vectors and the discretization values are. *)
Theorem init_validates_truncation_only (bv : triple vec3)
  (d : discretization_arg) (tr : string) (ha : option harmonics) :
  Lattice.__init__ bv d tr ha
  = (if String.eqb tr "spherical" || String.eqb tr "parallelogrammic"
     then OK {| Lattice.truncation := tr;
                Lattice.basis_vectors := bv;
                Lattice.discretization :=
                  match d with DScalar x => [x; x] | DSeq l => l end;
                Lattice.harmonics_array := ha |}
     else Raise ValueError)
  /\ Lattice.__init__ bv d "hexagonal" ha = Raise ValueError
  /\ (forall (x : R) (n : Z),
        exists L,
          Lattice.__init__ bv (DSeq [PyFloat x; PyInt n; PyInt 0]) "spherical"
            ha = OK L).
Proof.
  repeat split.
  - unfold Lattice.__init__. cbn [existsb].
    rewrite orb_false_r, (String.eqb_sym tr "spherical"),
      (String.eqb_sym tr "parallelogrammic").
    destruct (_ || _)%bool; reflexivity.
  - intros x n. eexists. reflexivity.
Qed.

(** ** Harmonics *)

Lemma Gl2_of_orthonormal (Lk : mat3) (i0 i1 i2 : Z) :
  orthonormal Lk ->
  Gl2_of Lk (i0, i1, i2) = 2 * (IZR i0 ^ 2 + IZR i1 ^ 2 + IZR i2 ^ 2).
Proof.
  destruct Lk as [[k0 k1] k2]. intros (H0 & H1 & H2 & H01 & H12 & H20).
  unfold Gl2_of, pair_form, norm.
  rewrite !pow2_sqrt by (rewrite ?H0, ?H1, ?H2; lra).
  rewrite H0, H1, H2, H01, H12, H20. ring.
Qed.

(** Among columns that ascend in the quadratic form of an orthonormal basis,
    the origin, when present, comes first. *)
Lemma sorted_head_origin (Lk : mat3) (cs : list index3) :
  orthonormal Lk ->
  Sorted Rle (map (Gl2_of Lk) cs) ->
  In (0, 0, 0)%Z cs ->
  hd_error cs = Some (0, 0, 0)%Z.
Proof.
  intros Hon Hsorted Hin.
  destruct cs as [| [[i0 i1] i2] t]; [ contradiction | ].
  cbn [hd_error]. f_equal.
  assert (Hle : Gl2_of Lk (i0, i1, i2) <= 0).
  { destruct Hin as [E | Hin]; [ rewrite E, Gl2_of_origin; lra | ].
    apply Sorted_StronglySorted in Hsorted;
      [ | intros x y z; apply Rle_trans ].
    cbn [map] in Hsorted. apply StronglySorted_inv in Hsorted as [_ Hall].
    rewrite Forall_forall in Hall.
    rewrite <- (Gl2_of_origin Lk). apply Hall.
    apply in_map. exact Hin. }
  rewrite Gl2_of_orthonormal in Hle by exact Hon.
  assert (E0 : IZR i0 = 0) by nra.
  assert (E1 : IZR i1 = 0) by nra.
  assert (E2 : IZR i2 = 0) by nra.
  apply eq_IZR in E0, E1, E2. now subst.
Qed.

Section HarmonicsClaims.

Context `{FloatArith} `{Backend}.

(** C3: a lattice constructed with a harmonics array returns that array and
    its number of columns, for every requested [nh], an integer or not, and
    for both truncation modes. *)
Theorem get_harmonics_preset_array (bv : triple vec3)
  (d : discretization_arg) (tr : string) (a : harmonics) (L : Lattice.t)
  (nh : pynum) :
  Lattice.__init__ bv d tr (Some a) = OK L ->
  Lattice.get_harmonics L nh = OK (a, ncols a).
Proof.
  unfold Lattice.__init__. destruct (negb _); [ discriminate | ].
  intros [= <-]. now apply get_harmonics_preset.
Qed.

(** C4, amended: on a lattice with truncation "spherical" and no harmonics
    array, [get_harmonics] raises for every [nh].  The error is
    [NotImplementedError] whenever [nh] is an integer value and the
    reciprocal basis is returned, which is computed first: when its
    inversion raises, that error comes out instead.  Before that, an [nh]
    that differs from [int(nh)] raises [ValueError], and what [int(nh)]
    raises (for an infinity or nan) comes out as it is. *)
Theorem get_harmonics_spherical_raises (L : Lattice.t) (nh : pynum) :
  Lattice.truncation L = "spherical"%string ->
  Lattice.harmonics_array L = None ->
  (exists e, Lattice.get_harmonics L nh = Raise e)
  /\ (forall Lk : mat3,
        is_integral nh = OK true -> Lattice.reciprocal L = OK Lk ->
        Lattice.get_harmonics L nh = Raise NotImplementedError)
  /\ (forall e : exn,
        is_integral nh = OK true -> Lattice.reciprocal L = Raise e ->
        Lattice.get_harmonics L nh = Raise e)
  /\ (is_integral nh = OK false ->
      Lattice.get_harmonics L nh = Raise ValueError)
  /\ (forall e : exn,
        is_integral nh = Raise e -> Lattice.get_harmonics L nh = Raise e).
Proof.
  intros Htr Ha.
  assert (Hreg : forall Lk : mat3,
             is_integral nh = OK true -> Lattice.reciprocal L = OK Lk ->
             Lattice.get_harmonics L nh = Raise NotImplementedError).
  { intros Lk Hnh Hrec.
    now rewrite (get_harmonics_spherical L nh Htr Ha Hnh), Hrec. }
  assert (Hinv : forall e : exn,
             is_integral nh = OK true -> Lattice.reciprocal L = Raise e ->
             Lattice.get_harmonics L nh = Raise e).
  { intros e Hnh Hrec.
    now rewrite (get_harmonics_spherical L nh Htr Ha Hnh), Hrec. }
  split; [ | split; [ exact Hreg | split; [ exact Hinv | split ] ] ].
  - destruct (is_integral nh) as [[|] | e] eqn:Hnh.
    + destruct (Lattice.reciprocal L) as [Lk | e] eqn:Hrec; eauto.
    + exists ValueError. now apply get_harmonics_not_integral.
    + exists e. now apply get_harmonics_int_error.
  - now apply get_harmonics_not_integral.
  - intros e. now apply get_harmonics_int_error.
Qed.

(** The count returned follows the truncated float cube root [r], whatever
    it is: it is the cube of [r] made odd. *)
Lemma get_harmonics_count (L : Lattice.t) (n r : Z) :
  Lattice.truncation L = "parallelogrammic"%string ->
  Lattice.harmonics_array L = None ->
  linearly_independent (Lattice.basis_vectors L) ->
  (1 <= n)%Z ->
  trunc (float_pow (IZR n) (1 / 3)) = r ->
  (1 <= r)%Z ->
  exists G,
    Lattice.get_harmonics L (PyInt n) = OK (G, (odd_below r ^ 3)%Z).
Proof.
  intros Htr Ha Hind Hn Hr Hr1.
  destruct (reciprocal_regular L Hind) as (m & _ & Hrec).
  assert (Hp : py_pow (PyInt n) (1 / 3) = OK (float_pow (IZR n) (1 / 3)))
    by (apply py_pow_int; lia).
  destruct (parallelogramic_truncation_cube (PyInt n)
              (mscale (2 * PI) (transpose m)) Hp Hr Hr1)
    as (cs & Hcs & _).
  exists (rows_of cs).
  rewrite (get_harmonics_parallelogrammic L (PyInt n) Htr Ha (is_integral_int n)), Hrec.
  exact Hcs.
Qed.

(** With [r = int(n ** (1 / 3))] at least one, for an integer [n >= 1] and
    linearly independent basis vectors, [get_harmonics] returns
    [NGroot ^ 3] harmonics and that count, where [NGroot] is [r] made odd;
    the columns are, each exactly once, the integer triples with every
    component in [[-M, NGroot - M)], [M = NGroot // 2]. *)
Lemma get_harmonics_truncated_cube (L : Lattice.t) (n r : Z) :
  Lattice.truncation L = "parallelogrammic"%string ->
  Lattice.harmonics_array L = None ->
  linearly_independent (Lattice.basis_vectors L) ->
  (1 <= n)%Z ->
  trunc (float_pow (IZR n) (1 / 3)) = r ->
  (1 <= r)%Z ->
  let NGroot := odd_below r in
  let M := (NGroot / 2)%Z in
  exists G,
    Lattice.get_harmonics L (PyInt n) = OK (G, (NGroot ^ 3)%Z)
    /\ G = rows_of (columns G)
    /\ ncols G = (NGroot ^ 3)%Z
    /\ Z.of_nat (length (columns G)) = (NGroot ^ 3)%Z
    /\ NoDup (columns G)
    /\ (forall i1 i2 i3 : Z,
          In (i1, i2, i3) (columns G) <->
          (- M <= i1 < NGroot - M)%Z /\ (- M <= i2 < NGroot - M)%Z
          /\ (- M <= i3 < NGroot - M)%Z).
Proof.
  intros Htr Ha Hind Hn Hr Hr1 NGroot M.
  destruct (reciprocal_regular L Hind) as (m & _ & Hrec).
  assert (Hp : py_pow (PyInt n) (1 / 3) = OK (float_pow (IZR n) (1 / 3)))
    by (apply py_pow_int; lia).
  destruct (parallelogramic_truncation_cube (PyInt n)
              (mscale (2 * PI) (transpose m)) Hp Hr Hr1)
    as (cs & Hcs & Hperm & _).
  fold NGroot in Hcs, Hperm. fold M in Hperm.
  destruct (odd_below_props Hr1) as [HN _]. fold NGroot in HN.
  assert (Hlen : Z.of_nat (length cs) = (NGroot ^ 3)%Z).
  { rewrite (Permutation_length Hperm). apply length_candidates. lia. }
  exists (rows_of cs). rewrite columns_rows_of.
  split; [ | split; [ reflexivity | split; [ | split; [ exact Hlen | split ] ] ] ].
  - rewrite (get_harmonics_parallelogrammic L (PyInt n) Htr Ha (is_integral_int n)), Hrec.
    exact Hcs.
  - unfold rows_of, ncols. now rewrite length_map.
  - apply (Permutation_NoDup (Permutation_sym Hperm)).
    apply NoDup_cube3; apply NoDup_arange.
  - intros i1 i2 i3. rewrite <- !in_arange, <- in_cube3.
    split; apply Permutation_in; [ | apply Permutation_sym ]; exact Hperm.
Qed.

(** Wherever [int(n ** (1 / 3))] is the integer part [r] of the cube root of
    an integer [n >= 1], and the basis vectors are linearly independent,
    [get_harmonics] returns [NGroot ^ 3] harmonics and that count, where
    [NGroot] is [r] made odd; the columns are, each exactly once, the
    integer triples with every component in [[-M, NGroot - M)],
    [M = NGroot // 2]. *)
Lemma get_harmonics_full_cube (L : Lattice.t) (n r : Z) :
  Lattice.truncation L = "parallelogrammic"%string ->
  Lattice.harmonics_array L = None ->
  linearly_independent (Lattice.basis_vectors L) ->
  (1 <= n)%Z ->
  trunc (float_pow (IZR n) (1 / 3)) = r ->
  floor_cbrt n r ->
  let NGroot := odd_below r in
  let M := (NGroot / 2)%Z in
  exists G,
    Lattice.get_harmonics L (PyInt n) = OK (G, (NGroot ^ 3)%Z)
    /\ G = rows_of (columns G)
    /\ ncols G = (NGroot ^ 3)%Z
    /\ Z.of_nat (length (columns G)) = (NGroot ^ 3)%Z
    /\ NoDup (columns G)
    /\ (forall i1 i2 i3 : Z,
          In (i1, i2, i3) (columns G) <->
          (- M <= i1 < NGroot - M)%Z /\ (- M <= i2 < NGroot - M)%Z
          /\ (- M <= i3 < NGroot - M)%Z).
Proof.
  intros Htr Ha Hind Hn Hr (Hr0 & Hlo & Hhi).
  apply get_harmonics_truncated_cube; try assumption.
  destruct (Z.eq_dec r 0) as [-> | ]; [ simpl in Hhi | ]; lia.
Qed.

(** C1, as the code has it: asked for 125 harmonics, where the float power
    [125 ** (1 / 3)] falls below 5 and [int] makes it 4, [get_harmonics]
    takes [NGroot = 3] and returns the 27 triples over [{-1, 0, 1}] with the
    count 27; the integer part of the cube root of 125 is 5, which is odd,
    so that the cube of the claim is the 125 triples over
    [{-2, ..., 2}]. *)
Theorem get_harmonics_125_returns_27 (L : Lattice.t) (Lk : mat3) :
  Lattice.truncation L = "parallelogrammic"%string ->
  Lattice.harmonics_array L = None ->
  Lattice.reciprocal L = OK Lk ->
  trunc (float_pow 125 (1 / 3)) = 4%Z ->
  floor_cbrt 125 5
  /\ odd_below 5 = 5%Z
  /\ exists G,
      Lattice.get_harmonics L (PyInt 125) = OK (G, 27%Z)
      /\ length (columns G) = 27%nat
      /\ NoDup (columns G)
      /\ (forall i1 i2 i3 : Z,
            In (i1, i2, i3) (columns G) <->
            (-1 <= i1 <= 1)%Z /\ (-1 <= i2 <= 1)%Z /\ (-1 <= i3 <= 1)%Z).
Proof.
  intros Htr Ha Hrec H125.
  split; [ unfold floor_cbrt; lia | split; [ reflexivity | ] ].
  assert (Hp : py_pow (PyInt 125) (1 / 3) = OK (float_pow 125 (1 / 3)))
    by (apply py_pow_int; lia).
  destruct (parallelogramic_truncation_cube (PyInt 125) Lk Hp H125)
    as (cs & Hcs & Hperm & _); [ lia | ].
  change (odd_below 4) with 3%Z in Hcs, Hperm.
  change (arange (- (3 / 2)) (3 - 3 / 2)) with [-1; 0; 1]%Z in Hperm.
  exists (rows_of cs). rewrite columns_rows_of.
  split; [ | split; [ | split ] ].
  - rewrite (get_harmonics_parallelogrammic L (PyInt 125) Htr Ha eq_refl),
      Hrec.
    exact Hcs.
  - now rewrite (Permutation_length Hperm).
  - apply (Permutation_NoDup (Permutation_sym Hperm)).
    apply NoDup_cube3; apply (NoDup_arange (-1) 2).
  - intros i1 i2 i3.
    transitivity (In (i1, i2, i3) (cube3 [-1; 0; 1] [-1; 0; 1] [-1; 0; 1])%Z).
    + split; apply Permutation_in;
        [ | apply Permutation_sym ]; exact Hperm.
    + rewrite in_cube3. cbn [In]. lia.
Qed.

(** C2: on a lattice with parallelogrammic truncation and reciprocal basis
    [Lk], the columns returned by [get_harmonics] ascend in the quadratic
    form [Gl2]; when [Lk] is orthonormal and [int(27 ** (1 / 3))] is 3, the
    call with [nh = 27] returns 27 columns, the triples over [{-1, 0, 1}],
    with [(0, 0, 0)] first. *)
Theorem get_harmonics_sorted (L : Lattice.t) (Lk : mat3) :
  Lattice.truncation L = "parallelogrammic"%string ->
  Lattice.harmonics_array L = None ->
  Lattice.reciprocal L = OK Lk ->
  (forall (nh : pynum) (G : harmonics) (m : Z),
      Lattice.get_harmonics L nh = OK (G, m) ->
      Sorted Rle (map (Gl2_of Lk) (columns G)))
  /\ (orthonormal Lk ->
      trunc (float_pow 27 (1 / 3)) = 3%Z ->
      exists G,
        Lattice.get_harmonics L (PyInt 27) = OK (G, 27%Z)
        /\ length (columns G) = 27%nat
        /\ NoDup (columns G)
        /\ (forall i1 i2 i3 : Z,
              In (i1, i2, i3) (columns G) <->
              (-1 <= i1 <= 1)%Z /\ (-1 <= i2 <= 1)%Z /\ (-1 <= i3 <= 1)%Z)
        /\ hd_error (columns G) = Some (0, 0, 0)%Z
        /\ Sorted Rle (map (Gl2_of Lk) (columns G))).
Proof.
  intros Htr Ha Hrec. split.
  - intros nh G m Hret.
    pose proof (get_harmonics_integral L nh Ha Hret) as Hnh.
    rewrite (get_harmonics_parallelogrammic L nh Htr Ha Hnh), Hrec in Hret.
    exact (parallelogramic_truncation_sorted nh Lk Hret).
  - intros Hon H27.
    assert (Hp : py_pow (PyInt 27) (1 / 3) = OK (float_pow 27 (1 / 3)))
      by (apply py_pow_int; lia).
    destruct (parallelogramic_truncation_cube (PyInt 27) Lk Hp H27)
      as (cs & Hcs & Hperm & Hsorted); [ lia | ].
    change (odd_below 3) with 3%Z in Hcs, Hperm.
    change (arange (- (3 / 2)) (3 - 3 / 2)) with [-1; 0; 1]%Z in Hperm.
    assert (Hmem : forall i1 i2 i3 : Z,
               In (i1, i2, i3) cs <->
               (-1 <= i1 <= 1)%Z /\ (-1 <= i2 <= 1)%Z /\ (-1 <= i3 <= 1)%Z).
    { intros i1 i2 i3.
      transitivity (In (i1, i2, i3) (cube3 [-1; 0; 1] [-1; 0; 1] [-1; 0; 1])%Z).
      - split; apply Permutation_in;
          [ | apply Permutation_sym ]; exact Hperm.
      - rewrite in_cube3. cbn [In]. lia. }
    exists (rows_of cs). rewrite columns_rows_of.
    split; [ | split; [ | split; [ | split; [ exact Hmem | split ] ] ] ].
    + rewrite (get_harmonics_parallelogrammic L (PyInt 27) Htr Ha eq_refl),
        Hrec.
      exact Hcs.
    + now rewrite (Permutation_length Hperm).
    + apply (Permutation_NoDup (Permutation_sym Hperm)).
      apply NoDup_cube3; apply (NoDup_arange (-1) 2).
    + apply sorted_head_origin with (Lk := Lk);
        [ exact Hon | exact Hsorted | apply Hmem; lia ].
    + exact Hsorted.
Qed.

(** On a lattice with parallelogrammic truncation and no harmonics array,
    for an integer [n >= 1] whose truncated float cube root [r] is at least
    one and does not overshoot ([r ^ 3 <= n]), every count returned by
    [get_harmonics] is an odd positive perfect cube and is at most [n]; and a
    count is returned whenever the basis vectors are linearly
    independent. *)
Lemma nh_actual_odd_cube (L : Lattice.t) (n r : Z) :
  Lattice.truncation L = "parallelogrammic"%string ->
  Lattice.harmonics_array L = None ->
  (1 <= n)%Z ->
  trunc (float_pow (IZR n) (1 / 3)) = r ->
  (1 <= r)%Z -> (r ^ 3 <= n)%Z ->
  (forall (G : harmonics) (m : Z),
      Lattice.get_harmonics L (PyInt n) = OK (G, m) ->
      Z.odd m = true /\ (0 < m)%Z /\ (exists k, m = (k ^ 3)%Z)
      /\ (m <= n)%Z)
  /\ (linearly_independent (Lattice.basis_vectors L) ->
      exists G m, Lattice.get_harmonics L (PyInt n) = OK (G, m)).
Proof.
  intros Htr Ha Hn Hr Hr1 Hcube.
  assert (Hp : py_pow (PyInt n) (1 / 3) = OK (float_pow (IZR n) (1 / 3)))
    by (apply py_pow_int; lia).
  pose proof (get_harmonics_parallelogrammic L (PyInt n) Htr Ha (is_integral_int n))
    as Hget.
  destruct (odd_below_props Hr1) as [HN Hodd].
  split.
  - intros G m Hret. rewrite Hget in Hret.
    destruct (Lattice.reciprocal L) as [Lk | e]; [ | discriminate ].
    cbn [bind] in Hret.
    destruct (parallelogramic_truncation_cube (PyInt n) Lk Hp Hr Hr1)
      as (cs & Hcs & _).
    assert (Em : m = (odd_below r ^ 3)%Z) by congruence.
    rewrite Em. clear Em Hret.
    split; [ | split; [ | split ] ].
    + rewrite Z.odd_pow by lia. exact Hodd.
    + apply Z.pow_pos_nonneg; lia.
    + eauto.
    + apply Z.le_trans with (r ^ 3)%Z; [ | exact Hcube ].
      apply Z.pow_le_mono_l. lia.
  - intros Hind. rewrite Hget.
    destruct (reciprocal_regular L Hind) as (m & _ & ->). cbn [bind].
    destruct (parallelogramic_truncation_cube (PyInt n)
                (mscale (2 * PI) (transpose m)) Hp Hr Hr1)
      as (cs & Hcs & _).
    eauto.
Qed.

End HarmonicsClaims.

Section CountBound.

Context {FA : FloatArith} {AP : AccuratePow FA} `{Backend}.

(** C10: on a lattice with parallelogrammic truncation and no harmonics
    array, for every integer [n >= 1], every count returned by
    [get_harmonics] is an odd positive perfect cube and is at most [n]; and a
    count is returned whenever the basis vectors are linearly independent
    and [n] converts to a float, that is below [2 ^ 1024 - 2 ^ 970].  The
    float power is taken to be accurate to one unit in the last place. *)
Theorem nh_actual_odd_positive_cube (L : Lattice.t) (n : Z) :
  Lattice.truncation L = "parallelogrammic"%string ->
  Lattice.harmonics_array L = None ->
  (1 <= n)%Z ->
  (forall (G : harmonics) (m : Z),
      Lattice.get_harmonics L (PyInt n) = OK (G, m) ->
      Z.odd m = true /\ (0 < m)%Z /\ (exists k, m = (k ^ 3)%Z)
      /\ (m <= n)%Z)
  /\ ((n < 2 ^ 1024 - 2 ^ 970)%Z ->
      linearly_independent (Lattice.basis_vectors L) ->
      exists G m, Lattice.get_harmonics L (PyInt n) = OK (G, m)).
Proof.
  intros Htr Ha Hn.
  destruct (accurate_trunc Hn) as [Hr1 Hr3].
  destruct (nh_actual_odd_cube L Htr Ha Hn eq_refl Hr1 Hr3) as [Hall Hex].
  split; [ exact Hall | intros _; exact Hex ].
Qed.

End CountBound.

(** ** The unit grid *)

Lemma nth_map_in (A B : Type) (f : A -> B) (l : list A) (i : nat) (d : A)
  (d' : B) :
  (i < length l)%nat -> nth i (map f l) d' = f (nth i l d).
Proof.
  intros Hi. rewrite (nth_indep _ d' (f d)) by now rewrite length_map.
  apply map_nth.
Qed.

(** [linspace(0, 1.0, n)] for a positive [n]: [n] samples within [[0, 1]]. *)
Lemma linspace_unit (n : Z) :
  (0 < n)%Z ->
  exists l,
    linspace 0 1 (PyInt n) = OK l
    /\ length l = Z.to_nat n
    /\ Forall (fun v => 0 <= v <= 1) l.
Proof.
  intros Hn. unfold linspace.
  destruct (Z.ltb_spec n 0) as [Hneg | _]; [ lia | ].
  eexists. split; [ reflexivity | ]. split.
  - rewrite length_map, length_arange. f_equal. lia.
  - apply Forall_forall. intros v Hv.
    apply in_map_iff in Hv as (i & <- & Hi). apply in_arange in Hi.
    destruct (Z.ltb_spec 0 (n - 1)) as [Hdiv | Hdiv].
    + destruct (Z.eqb_spec i (n - 1)) as [_ | Hlast]; [ lra | ].
      assert (Hd : 0 < IZR (n - 1)) by (apply IZR_lt; lia).
      assert (Hi0 : 0 <= IZR i) by (apply IZR_le; lia).
      assert (Hi1 : IZR i <= IZR (n - 1)) by (apply IZR_le; lia).
      replace (0 + IZR i * ((1 - 0) / IZR (n - 1)))
        with (IZR i / IZR (n - 1)) by (field; lra).
      split.
      * apply Rmult_le_pos; [ exact Hi0 | ].
        apply Rlt_le, Rinv_0_lt_compat; exact Hd.
      * apply (Rmult_le_reg_r (IZR (n - 1))); [ exact Hd | ].
        replace (IZR i / IZR (n - 1) * IZR (n - 1)) with (IZR i)
          by (field; lra).
        lra.
    + assert (i = 0%Z) as -> by lia. lra.
Qed.

Section Meshgrid.

Variables (xs ys zs : list R).

Let mesh (f : R -> R -> R -> R) : array3 :=
  map (fun x => map (fun y => map (fun z => f x y z) zs) ys) xs.

Lemma mesh_shape (f : R -> R -> R -> R) :
  has_shape3 (mesh f) (length xs) (length ys) (length zs).
Proof.
  unfold has_shape3, mesh. split; [ apply length_map | ].
  apply Forall_map, Forall_forall. intros x _.
  split; [ apply length_map | ].
  apply Forall_map, Forall_forall. intros y _. apply length_map.
Qed.

Lemma mesh_values (P : R -> Prop) (f : R -> R -> R -> R) :
  (forall x y z, In x xs -> In y ys -> In z zs -> P (f x y z)) ->
  Forall (Forall (Forall P)) (mesh f).
Proof.
  intros Hf. unfold mesh.
  apply Forall_map, Forall_forall. intros x Hx.
  apply Forall_map, Forall_forall. intros y Hy.
  apply Forall_map, Forall_forall. intros z Hz. now apply Hf.
Qed.

Lemma mesh_at (f : R -> R -> R -> R) (i j k : nat) :
  (i < length xs)%nat -> (j < length ys)%nat -> (k < length zs)%nat ->
  at3 (mesh f) i j k = f (nth i xs 0) (nth j ys 0) (nth k zs 0).
Proof.
  intros Hi Hj Hk. unfold at3, mesh.
  rewrite (nth_map_in _ xs 0 _ Hi), (nth_map_in _ ys 0 _ Hj).
  apply (nth_map_in _ zs 0 _ Hk).
Qed.

End Meshgrid.

(** C9: when the discretization is three positive integers [(Nx, Ny, Nz)],
    [unit_grid] returns an array of shape [(3, Nx, Ny, Nz)] whose values all
    lie in [[0, 1]], and whose component [c] varies along axis [c] only,
    following the samples of that axis. *)
Theorem unit_grid_shape_values (L : Lattice.t) (Nx Ny Nz : Z) :
  (0 < Nx)%Z -> (0 < Ny)%Z -> (0 < Nz)%Z ->
  Lattice.discretization L = [PyInt Nx; PyInt Ny; PyInt Nz] ->
  exists x0 y0 z0 g,
    linspace 0 1 (PyInt Nx) = OK x0
    /\ linspace 0 1 (PyInt Ny) = OK y0
    /\ linspace 0 1 (PyInt Nz) = OK z0
    /\ Lattice.unit_grid L = OK g
    /\ has_shape4 g 3 (Z.to_nat Nx) (Z.to_nat Ny) (Z.to_nat Nz)
    /\ all_values (fun v => 0 <= v <= 1) g
    /\ (forall i j k : nat,
          (i < Z.to_nat Nx)%nat -> (j < Z.to_nat Ny)%nat ->
          (k < Z.to_nat Nz)%nat ->
          at4 g 0 i j k = nth i x0 0
          /\ at4 g 1 i j k = nth j y0 0
          /\ at4 g 2 i j k = nth k z0 0).
Proof.
  intros Hx Hy Hz Hd.
  destruct (linspace_unit Hx) as (x0 & Ex & Lx & Vx).
  destruct (linspace_unit Hy) as (y0 & Ey & Ly & Vy).
  destruct (linspace_unit Hz) as (z0 & Ez & Lz & Vz).
  rewrite Forall_forall in Vx, Vy, Vz.
  exists x0, y0, z0, (stack (meshgrid x0 y0 z0)).
  repeat (split; [ assumption | ]).
  split; [ | split; [ | split ] ].
  - unfold Lattice.unit_grid. now rewrite Hd, Ex, Ey, Ez.
  - rewrite <- Lx, <- Ly, <- Lz. split; [ reflexivity | ].
    unfold meshgrid, stack. repeat constructor; apply mesh_shape.
  - unfold all_values, meshgrid, stack.
    repeat constructor; apply mesh_values; auto.
  - intros i j k Hi Hj Hk. rewrite <- Lx in Hi. rewrite <- Ly in Hj.
    rewrite <- Lz in Hk. unfold at4, meshgrid, stack. cbn [nth].
    repeat split.
    + apply (mesh_at x0 y0 z0 (fun x _ _ => x) Hi Hj Hk).
    + apply (mesh_at x0 y0 z0 (fun _ y _ => y) Hi Hj Hk).
    + apply (mesh_at x0 y0 z0 (fun _ _ z => z) Hi Hj Hk).
Qed.

(** ** The statements at concrete lattices *)

Lemma exact_cbrt_27 : trunc (@float_pow exact_arith (IZR 27) (1 / 3)) = 3%Z.
Proof. apply trunc_exact_cbrt; unfold floor_cbrt; lia. Qed.

Lemma init_cubic (a : R) (tr : string) (ha : option harmonics) :
  tr = "spherical"%string \/ tr = "parallelogrammic"%string ->
  Lattice.__init__ ((a, 0, 0), (0, a, 0), (0, 0, a))
    (DSeq [PyInt 256; PyInt 256; PyInt 256]) tr ha
  = OK (cubic a tr ha).
Proof. intros [-> | ->]; reflexivity. Qed.

(** The exact power with the stored exponent has that accuracy. *)
Lemma stored_exponent_accurate : AccuratePow stored_exponent_arith.
Proof.
  assert (Hpow : forall x : R, 0 < x ->
             @float_pow stored_exponent_arith x (1 / 3)
             = Rpower x stored_third).
  { intros x Hx. cbn [float_pow stored_exponent_arith].
    unfold stored_exponent_pow, exact_pow.
    destruct (Req_dec_T (1 / 3) (1 / 3)) as [_ | NE]; [ | contradiction ].
    destruct (Req_dec_T x 0) as [E | _]; [ lra | reflexivity ]. }
  split.
  - rewrite Hpow by lra. unfold Rpower. rewrite ln_1, Rmult_0_r.
    apply exp_0.
  - intros n Hn. exists (IZR n).
    assert (Hn' : 2 <= IZR n) by (apply IZR_le; exact Hn).
    rewrite Hpow by lra.
    replace (IZR n - IZR n) with 0 by ring.
    replace (Rpower (IZR n) stored_third - Rpower (IZR n) stored_third)
      with 0 by ring.
    rewrite Rabs_R0, pow2_52, pow2_53.
    pose proof (exp_pos (stored_third * ln (IZR n))) as Hp.
    fold (Rpower (IZR n) stored_third) in Hp.
    split.
    + apply Rmult_le_pos; [ lra | ].
      apply Rlt_le, Rinv_0_lt_compat. lra.
    + apply Rmult_le_pos; [ lra | ].
      apply Rlt_le, Rinv_0_lt_compat. lra.
Qed.

(** With the exponent as stored, the power of 125 lies between 4 and 5. *)
Lemma stored_third_below : stored_third < 1 / 3.
Proof. unfold stored_third. lra. Qed.

Lemma stored_cbrt_125 :
  trunc (@float_pow stored_exponent_arith 125 (1 / 3)) = 4%Z.
Proof.
  cbn [float_pow stored_exponent_arith]. unfold stored_exponent_pow.
  destruct (Req_dec_T (1 / 3) (1 / 3)) as [_ | NE]; [ | contradiction ].
  unfold exact_pow. destruct (Req_dec_T 125 0) as [E | _]; [ lra | ].
  assert (Hlow : 4 <= Rpower 125 stored_third).
  { apply Rle_trans with (Rpower 125 (3 / 10)).
    - apply Rpower_three_tenths; lra.
    - apply Rle_Rpower; [ lra | ]. unfold stored_third. lra. }
  assert (Hhigh : Rpower 125 stored_third < 5).
  { replace 5 with (Rpower 125 (1 / 3)).
    - apply Rpower_lt; [ lra | exact stored_third_below ].
    - replace 125 with (5 ^ 3) by ring. apply Rpower_third_cube. lra. }
  unfold trunc. destruct (Rle_dec 0 _) as [_ | Hneg]; [ | lra ].
  apply Zfloor_eq. change (IZR 4) with 4. lra.
Qed.

(** The unit cubic cell asked for 125 harmonics. *)
Lemma get_harmonics_125_returns_27_witness :
  exists G,
    @Lattice.get_harmonics stored_exponent_arith reference_backend
      (cubic 1 "parallelogrammic" None) (PyInt 125)
    = OK (G, 27%Z)
    /\ length (columns G) = 27%nat.
Proof.
  destruct (reciprocal_regular (cubic 1 "parallelogrammic" None))
    as (m & _ & Hrec); [ apply cubic_independent; lra | ].
  destruct (@get_harmonics_125_returns_27 stored_exponent_arith
              reference_backend (cubic 1 "parallelogrammic" None) _
              eq_refl eq_refl Hrec stored_cbrt_125)
    as (_ & _ & G & Hret & Hlen & _).
  exists G. split; [ exact Hret | exact Hlen ].
Defined.

(** The unit cubic cell with 27 requested harmonics. *)
Example get_harmonics_full_cube_at_27 :
  exists G,
    @Lattice.get_harmonics exact_arith reference_backend
      (cubic 1 "parallelogrammic" None) (PyInt 27)
    = OK (G, 27%Z)
    /\ NoDup (columns G)
    /\ (forall i1 i2 i3 : Z,
          In (i1, i2, i3) (columns G) <->
          (-1 <= i1 < 2)%Z /\ (-1 <= i2 < 2)%Z /\ (-1 <= i3 < 2)%Z).
Proof.
  assert (Hind : linearly_independent
                   (Lattice.basis_vectors (cubic 1 "parallelogrammic" None)))
    by (apply cubic_independent; lra).
  assert (Hfl : floor_cbrt 27 3) by (unfold floor_cbrt; lia).
  destruct (@get_harmonics_full_cube exact_arith reference_backend
              (cubic 1 "parallelogrammic" None) 27 3
              eq_refl eq_refl Hind ltac:(lia) exact_cbrt_27 Hfl)
    as (G & Hret & _ & _ & _ & Hnd & Hin).
  exists G. split; [ exact Hret | split; [ exact Hnd | exact Hin ] ].
Qed.

(** The cubic cell of side [2 * pi], whose reciprocal basis is the identity,
    with 27 requested harmonics. *)
Lemma get_harmonics_sorted_witness :
  Lattice.reciprocal (cubic (2 * PI) "parallelogrammic" None) = OK identity3
  /\ orthonormal identity3
  /\ exists G,
      @Lattice.get_harmonics exact_arith reference_backend
        (cubic (2 * PI) "parallelogrammic" None)
        (PyInt 27) = OK (G, 27%Z)
      /\ length (columns G) = 27%nat
      /\ hd_error (columns G) = Some (0, 0, 0)%Z
      /\ Sorted Rle (map (Gl2_of identity3) (columns G)).
Proof.
  split; [ apply reciprocal_cubic_2pi | ].
  split; [ exact orthonormal_identity3 | ].
  destruct (@get_harmonics_sorted exact_arith reference_backend
              (cubic (2 * PI) "parallelogrammic" None) identity3
              eq_refl eq_refl (reciprocal_cubic_2pi _ _))
    as [_ H27].
  destruct (H27 orthonormal_identity3 exact_cbrt_27)
    as (G & Hret & Hlen & _ & _ & Hhd & Hsorted).
  exists G. repeat split; assumption.
Defined.

(** A preset array on a spherical lattice, asked for two and a half
    harmonics. *)
Lemma get_harmonics_preset_array_witness :
  Lattice.__init__ ((1, 0, 0), (0, 1, 0), (0, 0, 1))
    (DSeq [PyInt 256; PyInt 256; PyInt 256]) "spherical" (Some origin_only)
  = OK (cubic 1 "spherical" (Some origin_only))
  /\ @Lattice.get_harmonics exact_arith reference_backend
        (cubic 1 "spherical" (Some origin_only))
       (PyFloat (5 / 2))
     = OK (origin_only, 1%Z).
Proof.
  split; [ reflexivity | ].
  exact (@get_harmonics_preset_array exact_arith reference_backend
           ((1, 0, 0), (0, 1, 0), (0, 0, 1))
           (DSeq [PyInt 256; PyInt 256; PyInt 256]) "spherical"
           origin_only (cubic 1 "spherical" (Some origin_only))
           (PyFloat (5 / 2)) eq_refl).
Defined.

Lemma trunc_five_halves : trunc (5 / 2) = 2%Z.
Proof.
  unfold trunc. destruct (Rle_dec 0 (5 / 2)) as [_ | Hneg]; [ | lra ].
  apply Zfloor_eq. lra.
Qed.

Lemma is_integral_five_halves : is_integral (PyFloat (5 / 2)) = OK false.
Proof.
  unfold is_integral. cbn [py_int bind int_eqb]. rewrite trunc_five_halves.
  destruct (Req_dec_T 2 (5 / 2)) as [E | _]; [ lra | reflexivity ].
Qed.

Lemma det_cubic_0 (tr : string) (ha : option harmonics) :
  det (Lattice.basis_vectors (cubic 0 tr ha)) = 0.
Proof. unfold cubic, det, dot, cross. cbn [Lattice.basis_vectors]. ring. Qed.

(** C4 as stated fails: a spherical lattice constructed with a harmonics
    array returns that array; one without raises [ValueError], not
    [NotImplementedError], when [nh] is not an integer value, and the error
    of the matrix inversion when all its basis vectors are zero. *)
Lemma get_harmonics_spherical_counterexample :
  Lattice.__init__ ((1, 0, 0), (0, 1, 0), (0, 0, 1))
    (DSeq [PyInt 256; PyInt 256; PyInt 256]) "spherical" (Some origin_only)
  = OK (cubic 1 "spherical" (Some origin_only))
  /\ @Lattice.get_harmonics exact_arith reference_backend
        (cubic 1 "spherical" (Some origin_only))
       (PyInt 27)
     = OK (origin_only, 1%Z)
  /\ @Lattice.get_harmonics exact_arith reference_backend
        (cubic 1 "spherical" None) (PyFloat (5 / 2))
     = Raise ValueError
  /\ @Lattice.get_harmonics exact_arith reference_backend
        (cubic 0 "spherical" None) (PyInt 27)
     = Raise LinAlgError.
Proof.
  split; [ reflexivity | split; [ reflexivity | split ] ].
  - apply get_harmonics_not_integral; [ reflexivity | ].
    exact is_integral_five_halves.
  - rewrite get_harmonics_spherical by reflexivity.
    now rewrite (reciprocal_singular _ (det_cubic_0 "spherical" None)).
Qed.

(** A spherical lattice without harmonics array: an integer request on the
    unit cubic cell. *)
Lemma get_harmonics_spherical_raises_witness :
  @Lattice.get_harmonics exact_arith reference_backend
        (cubic 1 "spherical" None) (PyInt 27)
  = Raise NotImplementedError.
Proof.
  destruct (reciprocal_regular (cubic 1 "spherical" None))
    as (m & _ & Hrec); [ apply cubic_independent; lra | ].
  destruct (@get_harmonics_spherical_raises exact_arith reference_backend
              (cubic 1 "spherical" None) (PyInt 27) eq_refl eq_refl)
    as (_ & Hreg & _).
  exact (Hreg _ eq_refl Hrec).
Defined.

Lemma reciprocal_matrix_identity_witness :
  linearly_independent
    (Lattice.basis_vectors (cubic 2 "parallelogrammic" None))
  /\ exists m Lk,
      inv (Lattice.matrix (cubic 2 "parallelogrammic" None)) = OK m
      /\ Lk = mscale (2 * PI) (transpose m)
      /\ Lattice.reciprocal (cubic 2 "parallelogrammic" None) = OK Lk
      /\ mdiv (matmul (transpose Lk)
                 (Lattice.matrix (cubic 2 "parallelogrammic" None)))
           (2 * PI)
         = identity3.
Proof.
  assert (Hind : linearly_independent
                   (Lattice.basis_vectors (cubic 2 "parallelogrammic" None)))
    by (apply cubic_independent; lra).
  split; [ exact Hind | ].
  exact (reciprocal_matrix_identity (cubic 2 "parallelogrammic" None) Hind).
Defined.

Lemma unit_grid_shape_values_witness :
  exists g,
    Lattice.unit_grid (cubic 1 "parallelogrammic" None) = OK g
    /\ has_shape4 g 3 256 256 256
    /\ all_values (fun v => 0 <= v <= 1) g.
Proof.
  destruct (@unit_grid_shape_values (cubic 1 "parallelogrammic" None)
              256 256 256 ltac:(lia) ltac:(lia) ltac:(lia) eq_refl)
    as (x0 & y0 & z0 & g & _ & _ & _ & Hg & Hshape & Hval & _).
  exists g. split; [ exact Hg | split; [ exact Hshape | exact Hval ] ].
Defined.

Lemma nh_actual_odd_positive_cube_witness :
  exists G m,
    @Lattice.get_harmonics stored_exponent_arith reference_backend
        (cubic 1 "parallelogrammic" None) (PyInt 30)
    = OK (G, m)
    /\ Z.odd m = true /\ (0 < m)%Z /\ (exists k, m = (k ^ 3)%Z)
    /\ (m <= 30)%Z.
Proof.
  destruct (@nh_actual_odd_positive_cube stored_exponent_arith
              stored_exponent_accurate reference_backend
              (cubic 1 "parallelogrammic" None) 30
              eq_refl eq_refl ltac:(lia))
    as [Hall Hex].
  destruct Hex as (G & m & Hret);
    [ reflexivity | apply cubic_independent; lra | ].
  exists G, m. split; [ exact Hret | exact (Hall G m Hret) ].
Defined.

(** * Further properties of the code *)

(** ** [volume] and [reciprocal] at permuted and rescaled cells *)

Lemma triple_product_exchange (v0 v1 v2 : vec3) :
  dot (cross v1 v0) v2 = - dot (cross v0 v1) v2
  /\ dot (cross v0 v2) v1 = - dot (cross v0 v1) v2
  /\ dot (cross v2 v1) v0 = - dot (cross v0 v1) v2.
Proof.
  destruct v0 as [[? ?] ?], v1 as [[? ?] ?], v2 as [[? ?] ?].
  unfold dot, cross. repeat split; ring.
Qed.

(** X3: exchanging two basis vectors, which changes the sign of the triple
    product, leaves the volume unchanged. *)
Theorem volume_exchange (L : Lattice.t) :
  let '(v0, v1, v2) := Lattice.basis_vectors L in
  Lattice.volume (with_basis L (v1, v0, v2)) = Lattice.volume L
  /\ Lattice.volume (with_basis L (v0, v2, v1)) = Lattice.volume L
  /\ Lattice.volume (with_basis L (v2, v1, v0)) = Lattice.volume L.
Proof.
  destruct (Lattice.basis_vectors L) as [[v0 v1] v2] eqn:Hv.
  rewrite (volume_eq L Hv).
  rewrite (@volume_eq (with_basis L (v1, v0, v2)) v1 v0 v2 eq_refl).
  rewrite (@volume_eq (with_basis L (v0, v2, v1)) v0 v2 v1 eq_refl).
  rewrite (@volume_eq (with_basis L (v2, v1, v0)) v2 v1 v0 eq_refl).
  destruct (triple_product_exchange v0 v1 v2) as (E01 & E12 & E02).
  rewrite E01, E12, E02, Rabs_Ropp. repeat split.
Qed.

(** ** Inverses and the reciprocal of the reciprocal *)

Lemma det_inv (m n : mat3) : inv m = OK n -> det n * det m = 1.
Proof.
  destruct_mat m; unfold inv.
  destruct (Req_dec_T _ 0) as [E | NE]; [ discriminate | ].
  intros [= <-]. revert NE.
  unfold det. cbn [dot cross scale3 transpose]. intros NE.
  field. exact NE.
Qed.

Lemma inv_right (m n : mat3) : inv m = OK n -> matmul m n = identity3.
Proof.
  destruct_mat m; unfold inv.
  destruct (Req_dec_T _ 0) as [E | NE]; [ discriminate | ].
  intros [= <-]. revert NE.
  unfold det, matmul, transpose, identity3.
  cbn [dot cross scale3 map3 transpose]. intros NE.
  repeat (f_equal; try (field; exact NE)).
Qed.

Lemma matmul_assoc (a b c : mat3) :
  matmul (matmul a b) c = matmul a (matmul b c).
Proof.
  destruct_mat a; destruct_mat b; destruct_mat c.
  unfold matmul. cbn [transpose map3 dot].
  repeat apply (f_equal2 pair); ring.
Qed.

Lemma matmul_identity_l (a : mat3) : matmul identity3 a = a.
Proof.
  destruct_mat a. unfold matmul, identity3. cbn [transpose map3 dot].
  repeat apply (f_equal2 pair); ring.
Qed.

Lemma matmul_identity_r (a : mat3) : matmul a identity3 = a.
Proof.
  destruct_mat a. unfold matmul, identity3. cbn [transpose map3 dot].
  repeat apply (f_equal2 pair); ring.
Qed.

Lemma det_matmul (a b : mat3) : det (matmul a b) = det a * det b.
Proof.
  destruct_mat a; destruct_mat b.
  unfold matmul, det. cbn [transpose map3 dot cross]. ring.
Qed.

Lemma det_identity3 : det identity3 = 1.
Proof. unfold det, identity3, dot, cross. ring. Qed.

(** A left inverse of a matrix is what [inv] returns. *)
Lemma inv_unique (m p : mat3) : matmul p m = identity3 -> inv m = OK p.
Proof.
  intros Hp.
  assert (NE : det m <> 0).
  { intros E. pose proof (det_matmul p m) as Hdet.
    rewrite Hp, det_identity3, E in Hdet. lra. }
  destruct (inv_regular m NE) as [q Hq]. rewrite Hq. f_equal.
  rewrite <- (matmul_identity_l q), <- Hp, matmul_assoc.
  rewrite (inv_right m Hq). apply matmul_identity_r.
Qed.

Lemma inv_involutive (m n : mat3) : inv m = OK n -> inv n = OK m.
Proof. intros Hm. apply inv_unique. exact (inv_right m Hm). Qed.

Lemma transpose_involutive (m : mat3) : transpose (transpose m) = m.
Proof. destruct_mat m. reflexivity. Qed.

Lemma transpose_matmul (a b : mat3) :
  transpose (matmul a b) = matmul (transpose b) (transpose a).
Proof.
  destruct_mat a; destruct_mat b.
  unfold matmul. cbn [transpose map3 dot].
  repeat apply (f_equal2 pair); ring.
Qed.

Lemma inv_transpose (m n : mat3) :
  inv m = OK n -> inv (transpose m) = OK (transpose n).
Proof.
  intros Hm. apply inv_unique.
  rewrite <- transpose_matmul, (inv_right m Hm). reflexivity.
Qed.

Lemma scaled_dot_inv (k x y z p q s : R) :
  k <> 0 ->
  / k * x * (k * p) + / k * y * (k * q) + / k * z * (k * s)
  = x * p + y * q + z * s.
Proof. intros Hk; field; exact Hk. Qed.

Lemma inv_mscale (k : R) (m n : mat3) :
  k <> 0 -> inv m = OK n -> inv (mscale k m) = OK (mscale (/ k) n).
Proof.
  intros Hk Hm. apply inv_unique.
  apply inv_left in Hm. revert Hm.
  destruct_mat m; destruct_mat n.
  unfold matmul, mscale, identity3. cbn [transpose map3 scale3 dot].
  intros [= E1 E2 E3 E4 E5 E6 E7 E8 E9].
  rewrite !scaled_dot_inv by exact Hk.
  now rewrite E1, E2, E3, E4, E5, E6, E7, E8, E9.
Qed.

(** X5: scaling the basis vectors by [k <> 0] scales the reciprocal basis by
    [1 / k]. *)
Theorem reciprocal_scale (L : Lattice.t) (k : R) (Lk : mat3) :
  k <> 0 ->
  Lattice.reciprocal L = OK Lk ->
  let '(v0, v1, v2) := Lattice.basis_vectors L in
  Lattice.reciprocal
    (with_basis L (scale3 k v0, scale3 k v1, scale3 k v2))
  = OK (mscale (/ k) Lk).
Proof.
  intros Hk. unfold Lattice.reciprocal, Lattice.matrix.
  destruct (Lattice.basis_vectors L) as [[v0 v1] v2] eqn:Hv.
  cbn [with_basis Lattice.basis_vectors].
  destruct (inv (transpose (v0, v1, v2))) as [m | e] eqn:Hm;
    [ | discriminate ].
  cbn [bind]. intros [= <-].
  assert (Hs : transpose (scale3 k v0, scale3 k v1, scale3 k v2)
               = mscale k (transpose (v0, v1, v2))).
  { destruct v0 as [[? ?] ?], v1 as [[? ?] ?], v2 as [[? ?] ?].
    reflexivity. }
  rewrite Hs. erewrite inv_mscale; [ | exact Hk | exact Hm ].
  cbn [bind]. f_equal.
  destruct_mat m. unfold mscale. cbn [transpose map3 scale3].
  repeat apply (f_equal2 pair); ring.
Qed.

(** X6: taking the columns of the reciprocal basis as basis vectors of a new
    lattice, the reciprocal basis of that lattice is the matrix of the
    first one. *)
Theorem reciprocal_reciprocal (L : Lattice.t) (Lk : mat3) :
  Lattice.reciprocal L = OK Lk ->
  Lattice.reciprocal (with_basis L (transpose Lk)) = OK (Lattice.matrix L).
Proof.
  unfold Lattice.reciprocal.
  destruct (inv (Lattice.matrix L)) as [m | e] eqn:Hm; [ | discriminate ].
  cbn [bind]. intros [= <-].
  unfold Lattice.matrix at 1. cbn [with_basis Lattice.basis_vectors].
  rewrite transpose_involutive.
  erewrite inv_mscale;
    [ | exact two_PI_neq0 | apply inv_transpose, inv_involutive; exact Hm ].
  cbn [bind]. f_equal.
  generalize (Lattice.matrix L). intros B. destruct_mat B.
  unfold mscale. cbn [transpose map3 scale3].
  pose proof PI_RGT_0.
  repeat apply (f_equal2 pair); field; lra.
Qed.

(** ** What [get_harmonics] returns and raises, for every request *)

Lemma trunc_to_float_int (n : Z) : trunc (to_float (PyInt n)) = n.
Proof. apply trunc_IZR. Qed.

Lemma is_integral_float_int (n : Z) :
  is_integral (PyFloat (IZR n)) = OK true.
Proof.
  unfold is_integral. cbn [py_int bind int_eqb]. rewrite trunc_IZR.
  destruct (Req_dec_T (IZR n) (IZR n)); [ reflexivity | contradiction ].
Qed.

Lemma odd_below_odd (r : Z) : Z.odd (odd_below r) = true.
Proof.
  unfold odd_below. destruct (Z.even r) eqn:E.
  - rewrite Z.odd_sub. rewrite <- Z.negb_even, E. reflexivity.
  - now rewrite <- Z.negb_even, E.
Qed.

Lemma odd_below_centred (r : Z) :
  (odd_below r - odd_below r / 2 = odd_below r / 2 + 1)%Z.
Proof.
  pose proof (odd_below_odd r) as Hodd.
  apply Z.odd_spec in Hodd as [k Hk]. rewrite Hk.
  replace (2 * k + 1)%Z with (1 + k * 2)%Z by lia.
  rewrite Z.div_add by lia. change (1 / 2)%Z with 0%Z. lia.
Qed.

Section GetHarmonicsEverywhere.

Context `{FloatArith} `{Backend}.

(** The truncation function reads a finite [nh] only through its float
    value. *)
Lemma parallelogramic_truncation_value (n : Z) (Lk : mat3) :
  _parallelogramic_truncation (PyFloat (IZR n)) Lk
  = _parallelogramic_truncation (PyInt n) Lk.
Proof. reflexivity. Qed.

(** Every return of the truncation function, whatever the truncated cube
    root [r] is: a reordering of the cube of side [r] made odd (empty when
    that is not positive), ascending in the quadratic form, with count the
    cube of that side. *)
Lemma parallelogramic_truncation_inv (nh : pynum) (Lk : mat3)
  (G : harmonics) (m : Z) (p : R) :
  _parallelogramic_truncation nh Lk = OK (G, m) ->
  py_pow nh (1 / 3) = OK p ->
  let NGroot := odd_below (trunc p) in
  let xG := arange (- (NGroot / 2)) (NGroot - NGroot / 2) in
  m = (NGroot ^ 3)%Z
  /\ G = rows_of (columns G)
  /\ Permutation (columns G) (cube3 xG xG xG)
  /\ Sorted Rle (map (Gl2_of Lk) (columns G)).
Proof.
  intros Hret Hp NGroot xG.
  set (r := trunc p) in *.
  destruct (Z_lt_le_dec r 1) as [Hr | Hr].
  - rewrite (parallelogramic_truncation_empty nh Lk Hp eq_refl Hr) in Hret.
    assert (EG : G = rows_of []) by congruence.
    assert (Em : m = (NGroot ^ 3)%Z) by (unfold NGroot, r; congruence).
    assert (HxG : xG = []).
    { unfold xG, arange.
      assert (HN : (NGroot <= 0)%Z).
      { unfold NGroot, odd_below. destruct (Z.even r); lia. }
      replace (Z.to_nat (NGroot - NGroot / 2 - - (NGroot / 2))) with 0%nat
        by lia.
      reflexivity. }
    rewrite EG, HxG, columns_rows_of.
    split; [ exact Em | split; [ reflexivity | ] ].
    split; constructor.
  - destruct (parallelogramic_truncation_cube nh Lk Hp eq_refl Hr)
      as (cs & Hcs & Hperm & Hsorted).
    rewrite Hcs in Hret.
    assert (EG : G = rows_of cs) by congruence.
    assert (Em : m = (NGroot ^ 3)%Z) by (unfold NGroot, r; congruence).
    rewrite EG, columns_rows_of. auto.
Qed.

(** Every return of [get_harmonics] on a lattice without harmonics array
    and with a truncation other than "spherical" comes from the truncation
    function, applied to an integer value and to the reciprocal basis. *)
Lemma get_harmonics_inv (L : Lattice.t) (nh : pynum) (G : harmonics)
  (m : Z) :
  Lattice.truncation L = "parallelogrammic"%string ->
  Lattice.harmonics_array L = None ->
  Lattice.get_harmonics L nh = OK (G, m) ->
  exists Lk p,
    Lattice.reciprocal L = OK Lk
    /\ py_pow nh (1 / 3) = OK p
    /\ _parallelogramic_truncation nh Lk = OK (G, m).
Proof.
  intros Htr Ha Hret.
  pose proof (get_harmonics_integral L nh Ha Hret) as Hnh.
  rewrite (get_harmonics_parallelogrammic L nh Htr Ha Hnh) in Hret.
  destruct (Lattice.reciprocal L) as [Lk | e] eqn:Hrec;
    [ | discriminate ].
  cbn [bind] in Hret.
  destruct (parallelogramic_truncation_pow nh Lk Hret) as [p Hp].
  eauto.
Qed.

End GetHarmonicsEverywhere.

(** ** The quadratic form is a sum of squared lengths *)

Lemma dot_self_nonneg (a : vec3) : 0 <= dot a a.
Proof. destruct a as [[? ?] ?]. unfold dot. nra. Qed.

Lemma dot_self_zero (a : vec3) : dot a a = 0 -> a = (0, 0, 0).
Proof.
  destruct a as [[x y] z]. unfold dot. intros E.
  apply vec3_eq; nra.
Qed.

Lemma norm_sq (a : vec3) : norm a ^ 2 = dot a a.
Proof. unfold norm. apply pow2_sqrt, dot_self_nonneg. Qed.

Lemma pair_form_square (a b : vec3) (ia ib : Z) :
  pair_form a b ia ib
  = dot (vadd (scale3 (IZR ia) a) (scale3 (IZR ib) b))
        (vadd (scale3 (IZR ia) a) (scale3 (IZR ib) b)).
Proof.
  unfold pair_form. rewrite !norm_sq.
  destruct a as [[? ?] ?], b as [[? ?] ?]. unfold dot, vadd, scale3. ring.
Qed.

Lemma pair_form_nonneg (a b : vec3) (ia ib : Z) : 0 <= pair_form a b ia ib.
Proof. rewrite pair_form_square. apply dot_self_nonneg. Qed.

Lemma Gl2_of_nonneg (Lk : mat3) (t : index3) : 0 <= Gl2_of Lk t.
Proof.
  destruct Lk as [[k0 k1] k2], t as [[i0 i1] i2]. unfold Gl2_of.
  pose proof (pair_form_nonneg k2 k0 i2 i0).
  pose proof (pair_form_nonneg k0 k1 i0 i1).
  pose proof (pair_form_nonneg k1 k2 i1 i2). lra.
Qed.

(** Opposite harmonics have the same weight. *)
Lemma Gl2_of_opp (Lk : mat3) (i0 i1 i2 : Z) :
  Gl2_of Lk (- i0, - i1, - i2)%Z = Gl2_of Lk (i0, i1, i2).
Proof.
  destruct Lk as [[k0 k1] k2]. unfold Gl2_of, pair_form.
  rewrite !opp_IZR. ring.
Qed.

(** For independent rows the weight vanishes at the origin only. *)
Lemma Gl2_of_zero (Lk : mat3) (i0 i1 i2 : Z) :
  linearly_independent Lk ->
  Gl2_of Lk (i0, i1, i2) <= 0 -> (i0, i1, i2) = (0, 0, 0)%Z.
Proof.
  destruct Lk as [[k0 k1] k2]. unfold linearly_independent, Gl2_of.
  intros Hind Hle.
  pose proof (pair_form_nonneg k2 k0 i2 i0) as P20.
  pose proof (pair_form_nonneg k0 k1 i0 i1) as P01.
  pose proof (pair_form_nonneg k1 k2 i1 i2) as P12.
  assert (E01 : pair_form k0 k1 i0 i1 = 0) by lra.
  assert (E12 : pair_form k1 k2 i1 i2 = 0) by lra.
  rewrite pair_form_square in E01, E12.
  apply dot_self_zero in E01, E12.
  destruct (Hind (IZR i0) (IZR i1) 0) as (Z0 & Z1 & _).
  { rewrite <- E01.
    destruct k0 as [[? ?] ?], k1 as [[? ?] ?], k2 as [[? ?] ?].
    unfold vadd, scale3. apply vec3_eq; ring. }
  destruct (Hind 0 (IZR i1) (IZR i2)) as (_ & _ & Z2).
  { rewrite <- E12.
    destruct k0 as [[? ?] ?], k1 as [[? ?] ?], k2 as [[? ?] ?].
    unfold vadd, scale3. apply vec3_eq; ring. }
  apply eq_IZR in Z0, Z1, Z2. now subst.
Qed.

Lemma det_mscale (k : R) (m : mat3) : det (mscale k m) = k ^ 3 * det m.
Proof.
  destruct_mat m. unfold det, mscale. cbn [map3 scale3 dot cross]. ring.
Qed.

(** The rows of a reciprocal basis are linearly independent. *)
Lemma reciprocal_independent (L : Lattice.t) (Lk : mat3) :
  Lattice.reciprocal L = OK Lk -> linearly_independent Lk.
Proof.
  unfold Lattice.reciprocal.
  destruct (inv (Lattice.matrix L)) as [m | e] eqn:Hm; [ | discriminate ].
  cbn [bind]. intros [= <-]. apply det_independent.
  rewrite det_mscale, det_transpose.
  pose proof (det_inv _ Hm) as Hdet. pose proof PI_RGT_0 as Hpi.
  apply Rmult_integral_contrapositive_currified.
  - apply pow_nonzero. lra.
  - intros E. rewrite E in Hdet. lra.
Qed.

(** In a list ascending in a weight that is positive except at one item,
    that item, when present, comes first. *)
Lemma sorted_head_minimum (Lk : mat3) (cs : list index3) :
  linearly_independent Lk ->
  Sorted Rle (map (Gl2_of Lk) cs) ->
  In (0, 0, 0)%Z cs ->
  hd_error cs = Some (0, 0, 0)%Z.
Proof.
  intros Hind Hsorted Hin.
  destruct cs as [| [[i0 i1] i2] t]; [ contradiction | ].
  cbn [hd_error]. f_equal.
  apply (Gl2_of_zero Lk i0 i1 i2 Hind).
  destruct Hin as [E | Hin]; [ rewrite E, Gl2_of_origin; lra | ].
  apply Sorted_StronglySorted in Hsorted;
    [ | intros x y z; apply Rle_trans ].
  cbn [map] in Hsorted. apply StronglySorted_inv in Hsorted as [_ Hall].
  rewrite Forall_forall in Hall.
  rewrite <- (Gl2_of_origin Lk). apply Hall.
  apply in_map. exact Hin.
Qed.

Lemma in_centred_cube (r i j k : Z) :
  let NGroot := odd_below r in
  let xG := arange (- (NGroot / 2)) (NGroot - NGroot / 2) in
  In (i, j, k) (cube3 xG xG xG) <->
  (Z.abs i <= NGroot / 2 /\ Z.abs j <= NGroot / 2
   /\ Z.abs k <= NGroot / 2)%Z.
Proof.
  intros NGroot xG. unfold xG. rewrite in_cube3, !in_arange.
  unfold NGroot. rewrite odd_below_centred. lia.
Qed.

Section HarmonicsEverywhere.

Context `{FloatArith} `{Backend}.

(** X8: a float with an integer value is served like that integer, by every
    lattice. *)
Theorem get_harmonics_integral_float (L : Lattice.t) (n : Z) :
  Lattice.get_harmonics L (PyFloat (IZR n))
  = Lattice.get_harmonics L (PyInt n).
Proof.
  unfold Lattice.get_harmonics.
  rewrite is_integral_float_int, is_integral_int.
  destruct (Lattice.harmonics_array L); [ reflexivity | ].
  cbn [bind negb]. destruct (String.eqb _ _); [ reflexivity | ].
  destruct (Lattice.reciprocal L) as [Lk | e]; [ | reflexivity ].
  cbn [bind]. apply parallelogramic_truncation_value.
Qed.

(** X11: on a parallelogrammic lattice without harmonics array whose
    reciprocal basis is returned, a negative integer request raises
    [TypeError] while it converts to a float, that is above
    [- (2 ^ 1024 - 2 ^ 970)], and [OverflowError] from there on. *)
Theorem get_harmonics_negative_raises (L : Lattice.t) (Lk : mat3) (n : Z) :
  Lattice.truncation L = "parallelogrammic"%string ->
  Lattice.harmonics_array L = None ->
  Lattice.reciprocal L = OK Lk ->
  (n < 0)%Z ->
  ((- (2 ^ 1024 - 2 ^ 970) < n)%Z ->
   Lattice.get_harmonics L (PyInt n) = Raise TypeError)
  /\ ((n <= - (2 ^ 1024 - 2 ^ 970))%Z ->
      Lattice.get_harmonics L (PyInt n) = Raise OverflowError).
Proof.
  intros Htr Ha Hrec Hn. fold float_overflow.
  rewrite (get_harmonics_parallelogrammic L (PyInt n) Htr Ha
             (is_integral_int n)), Hrec.
  cbn [bind]. unfold _parallelogramic_truncation, py_pow.
  cbn [to_float]. cbv zeta.
  destruct (Rlt_dec (IZR n) 0) as [_ | Hpos];
    [ | exfalso; apply Hpos, IZR_lt; exact Hn ].
  rewrite <- opp_IZR.
  split; intros Hrange;
    destruct (Rle_dec (IZR n) (IZR (- float_overflow))) as [Hle | Hgt];
    try reflexivity.
  - apply le_IZR in Hle. lia.
  - exfalso. apply Hgt, IZR_le. exact Hrange.
Qed.


(** X13: whatever is returned on a parallelogrammic lattice: three rows of equal
    length without repeated column, a count that is an odd perfect cube, and
    as many columns as the count when it is positive, none otherwise. *)
Theorem get_harmonics_count_columns (L : Lattice.t) (nh : pynum)
  (G : harmonics) (m : Z) :
  Lattice.truncation L = "parallelogrammic"%string ->
  Lattice.harmonics_array L = None ->
  Lattice.get_harmonics L nh = OK (G, m) ->
  G = rows_of (columns G)
  /\ NoDup (columns G)
  /\ Z.odd m = true
  /\ (exists k, m = (k ^ 3)%Z)
  /\ Z.of_nat (length (columns G)) = Z.max m 0.
Proof.
  intros Htr Ha Hret.
  destruct (get_harmonics_inv L nh Htr Ha Hret)
    as (Lk & p & _ & Hp & Htrunc).
  destruct (parallelogramic_truncation_inv nh Lk Htrunc Hp)
    as (Em & Hrect & Hperm & _).
  set (r := trunc p) in *.
  set (NGroot := odd_below r) in *.
  split; [ exact Hrect | split; [ | split; [ | split ] ] ].
  - apply (Permutation_NoDup (Permutation_sym Hperm)).
    apply NoDup_cube3; apply NoDup_arange.
  - rewrite Em, Z.odd_pow by lia. apply odd_below_odd.
  - eauto.
  - rewrite (Permutation_length Hperm), length_cube3, length_arange, Em.
    replace (NGroot - NGroot / 2 - - (NGroot / 2))%Z with NGroot by lia.
    replace (NGroot ^ 3)%Z with (NGroot * NGroot * NGroot)%Z by ring.
    destruct (Z_lt_le_dec NGroot 1) as [Hneg | Hpos].
    + replace (Z.to_nat NGroot) with 0%nat by lia. cbn [Nat.mul].
      assert (Hodd : Z.odd NGroot = true) by apply odd_below_odd.
      assert (NGroot <> 0%Z) by (intros E; rewrite E in Hodd; discriminate).
      nia.
    + rewrite !Nat2Z.inj_mul, Z2Nat.id by lia. nia.
Qed.

(** X14: the first harmonic of a non-empty return is the origin, for every
    regular lattice, and every other harmonic has a positive weight. *)
Theorem get_harmonics_origin_first (L : Lattice.t) (nh : pynum)
  (G : harmonics) (m : Z) :
  Lattice.truncation L = "parallelogrammic"%string ->
  Lattice.harmonics_array L = None ->
  Lattice.get_harmonics L nh = OK (G, m) ->
  (0 < m)%Z ->
  hd_error (columns G) = Some (0, 0, 0)%Z
  /\ exists Lk,
      Lattice.reciprocal L = OK Lk
      /\ forall t, t <> (0, 0, 0)%Z -> 0 < Gl2_of Lk t.
Proof.
  intros Htr Ha Hret Hm.
  destruct (get_harmonics_inv L nh Htr Ha Hret)
    as (Lk & p & Hrec & Hp & Htrunc).
  destruct (parallelogramic_truncation_inv nh Lk Htrunc Hp)
    as (Em & _ & Hperm & Hsorted).
  pose proof (reciprocal_independent L Hrec) as Hind.
  set (r := trunc p) in *.
  assert (HN : (1 <= odd_below r)%Z).
  { destruct (Z_lt_le_dec (odd_below r) 1) as [Hneg | Hpos];
      [ | exact Hpos ].
    exfalso. rewrite Em in Hm.
    replace (odd_below r ^ 3)%Z
      with (odd_below r * odd_below r * odd_below r)%Z in Hm by ring.
    nia. }
  split.
  - apply sorted_head_minimum with (Lk := Lk);
      [ exact Hind | exact Hsorted | ].
    apply (Permutation_in _ (Permutation_sym Hperm)).
    apply (in_centred_cube r 0 0 0). cbn [Z.abs].
    assert (0 <= odd_below r / 2)%Z by (apply Z.div_pos; lia). lia.
  - exists Lk. split; [ exact Hrec | ].
    intros [[i0 i1] i2] Hne.
    destruct (Rle_lt_dec (Gl2_of Lk (i0, i1, i2)) 0) as [Hle | Hlt];
      [ | exact Hlt ].
    destruct Hne. now apply (Gl2_of_zero Lk i0 i1 i2 Hind).
Qed.

(** X15: the harmonics returned come in opposite pairs: with a triple, its
    opposite is returned too. *)
Theorem get_harmonics_symmetric (L : Lattice.t) (nh : pynum)
  (G : harmonics) (m : Z) :
  Lattice.truncation L = "parallelogrammic"%string ->
  Lattice.harmonics_array L = None ->
  Lattice.get_harmonics L nh = OK (G, m) ->
  forall i j k : Z,
    In (i, j, k) (columns G) -> In (- i, - j, - k)%Z (columns G).
Proof.
  intros Htr Ha Hret i j k Hin.
  destruct (get_harmonics_inv L nh Htr Ha Hret)
    as (Lk & p & _ & Hp & Htrunc).
  destruct (parallelogramic_truncation_inv nh Lk Htrunc Hp)
    as (_ & _ & Hperm & _).
  apply (Permutation_in _ (Permutation_sym Hperm)).
  apply (Permutation_in _ Hperm) in Hin.
  apply in_centred_cube in Hin. apply in_centred_cube.
  rewrite !Z.abs_opp. exact Hin.
Qed.

(** X16: two lattices asked for the same number return the same count and the
    same harmonics, up to their order. *)
Theorem get_harmonics_basis_independent (L L' : Lattice.t) (nh : pynum)
  (G G' : harmonics) (m m' : Z) :
  Lattice.truncation L = "parallelogrammic"%string ->
  Lattice.harmonics_array L = None ->
  Lattice.truncation L' = "parallelogrammic"%string ->
  Lattice.harmonics_array L' = None ->
  Lattice.get_harmonics L nh = OK (G, m) ->
  Lattice.get_harmonics L' nh = OK (G', m') ->
  m = m' /\ Permutation (columns G) (columns G').
Proof.
  intros Htr Ha Htr' Ha' Hret Hret'.
  destruct (get_harmonics_inv L nh Htr Ha Hret)
    as (Lk & p & _ & Hp & Htrunc).
  destruct (get_harmonics_inv L' nh Htr' Ha' Hret')
    as (Lk' & p' & _ & Hp' & Htrunc').
  assert (p' = p) as -> by congruence.
  destruct (parallelogramic_truncation_inv nh Lk Htrunc Hp)
    as (Em & _ & Hperm & _).
  destruct (parallelogramic_truncation_inv nh Lk' Htrunc' Hp)
    as (Em' & _ & Hperm' & _).
  split; [ congruence | ].
  apply Permutation_trans with (1 := Hperm).
  apply Permutation_sym. exact Hperm'.
Qed.

End HarmonicsEverywhere.

(** ** [unit_grid]: when it returns, and what it holds *)

Lemma linspace_defined_iff (start stop : R) (v : pynum) :
  (exists l, linspace start stop v = OK l) <->
  (exists n : Z, v = PyInt n /\ (0 <= n)%Z).
Proof.
  unfold linspace. split.
  - intros [l Hl]. destruct v as [n | x | b |]; try discriminate.
    destruct (Z.ltb_spec n 0); [ discriminate | eauto ].
  - intros (n & -> & Hn).
    destruct (Z.ltb_spec n 0); [ lia | eauto ].
Qed.

Lemma nth_arange (a b : Z) (i : nat) :
  (i < Z.to_nat (b - a))%nat ->
  nth i (arange a b) 0%Z = (a + Z.of_nat i)%Z.
Proof.
  intros Hi. unfold arange.
  rewrite (nth_map_in (fun j => (a + Z.of_nat j)%Z) _ 0%nat 0%Z)
    by now rewrite length_seq.
  now rewrite seq_nth.
Qed.

(** The samples of [linspace(0, 1.0, n)]. *)
Lemma linspace_unit_nth (n : Z) (l : list R) (i : nat) :
  linspace 0 1 (PyInt n) = OK l ->
  (i < Z.to_nat n)%nat ->
  nth i l 0 = unit_sample n i.
Proof.
  unfold linspace. destruct (Z.ltb_spec n 0) as [Hneg | Hn]; [ discriminate | ].
  intros [= <-] Hi.
  rewrite (nth_map_in _ (arange 0 n) 0%Z 0)
    by (rewrite length_arange; lia).
  rewrite nth_arange by lia. rewrite Z.add_0_l.
  unfold unit_sample. rewrite INR_IZR_INZ.
  destruct (Z.ltb_spec 0 (n - 1)) as [Hdiv | Hdiv].
  - destruct (Z.eqb_spec n 1) as [E | _]; [ lia | ].
    assert (Hd : IZR (n - 1) <> 0) by (apply not_0_IZR; lia).
    destruct (Z.eqb_spec (Z.of_nat i) (n - 1)) as [-> | _].
    + field. exact Hd.
    + field. exact Hd.
  - destruct (Z.eqb_spec n 1) as [_ | NE]; [ | lia ].
    replace (Z.of_nat i) with 0%Z by lia. lra.
Qed.

(** X18: [unit_grid] returns exactly when the discretization is three integers,
    none of them negative; a discretization of another length raises
    [ValueError], as every lattice constructed from a scalar has. *)
Theorem unit_grid_defined_iff (L : Lattice.t) :
  ((exists g, Lattice.unit_grid L = OK g) <->
   (exists Nx Ny Nz : Z,
       Lattice.discretization L = [PyInt Nx; PyInt Ny; PyInt Nz]
       /\ (0 <= Nx)%Z /\ (0 <= Ny)%Z /\ (0 <= Nz)%Z))
  /\ (length (Lattice.discretization L) <> 3%nat ->
      Lattice.unit_grid L = Raise ValueError).
Proof.
  unfold Lattice.unit_grid.
  destruct (Lattice.discretization L) as [| a [| b [| c [| d t]]]];
    try (split;
         [ split;
           [ intros [g Hg]; discriminate
           | intros (Nx & Ny & Nz & E & _); discriminate ]
         | reflexivity ]).
  split; [ | intros Hlen; now destruct Hlen ].
  split.
  - intros [g Hg].
    destruct (linspace 0 1 a) as [x0 | e] eqn:Ea; [ | discriminate ].
    destruct (linspace 0 1 b) as [y0 | e] eqn:Eb; [ | discriminate ].
    destruct (linspace 0 1 c) as [z0 | e] eqn:Ec; [ | discriminate ].
    destruct (proj1 (linspace_defined_iff 0 1 a)) as (Nx & -> & Hx);
      [ eauto | ].
    destruct (proj1 (linspace_defined_iff 0 1 b)) as (Ny & -> & Hy);
      [ eauto | ].
    destruct (proj1 (linspace_defined_iff 0 1 c)) as (Nz & -> & Hz);
      [ eauto | ].
    exists Nx, Ny, Nz. auto.
  - intros (Nx & Ny & Nz & [= -> -> ->] & Hx & Hy & Hz).
    destruct (proj2 (linspace_defined_iff 0 1 (PyInt Nx))) as [x0 ->];
      [ eauto | ].
    destruct (proj2 (linspace_defined_iff 0 1 (PyInt Ny))) as [y0 ->];
      [ eauto | ].
    destruct (proj2 (linspace_defined_iff 0 1 (PyInt Nz))) as [z0 ->];
      [ eauto | ].
    cbn [bind]. eauto.
Qed.

Lemma linspace_not_int (start stop : R) (v : pynum) :
  is_int v = false -> linspace start stop v = Raise TypeError.
Proof. destruct v; [ discriminate | reflexivity .. ]. Qed.

Lemma linspace_negative (start stop : R) (v : pynum) :
  negative_count v -> linspace start stop v = Raise ValueError.
Proof.
  intros (n & -> & Hn). unfold linspace.
  destruct (Z.ltb_spec n 0); [ reflexivity | lia ].
Qed.

Lemma linspace_sample_count (start stop : R) (v : pynum) :
  sample_count v -> exists l, linspace start stop v = OK l.
Proof. intros Hv. apply linspace_defined_iff. exact Hv. Qed.

(** X19: in [unit_grid] a discretization entry that is not an [int] raises
    [TypeError] and a negative [int] raises [ValueError]; the three axes are
    tried in order, so that the first offending one decides, be it the
    first, the second or the third. *)
Theorem unit_grid_bad_axis (L : Lattice.t) (a b c : pynum) :
  Lattice.discretization L = [a; b; c] ->
  (is_int a = false -> Lattice.unit_grid L = Raise TypeError)
  /\ (negative_count a -> Lattice.unit_grid L = Raise ValueError)
  /\ (sample_count a -> is_int b = false ->
      Lattice.unit_grid L = Raise TypeError)
  /\ (sample_count a -> negative_count b ->
      Lattice.unit_grid L = Raise ValueError)
  /\ (sample_count a -> sample_count b -> is_int c = false ->
      Lattice.unit_grid L = Raise TypeError)
  /\ (sample_count a -> sample_count b -> negative_count c ->
      Lattice.unit_grid L = Raise ValueError).
Proof.
  intros Hd. unfold Lattice.unit_grid. rewrite Hd.
  split; [ | split; [ | split; [ | split; [ | split ] ] ] ].
  - intros Ha. now rewrite linspace_not_int.
  - intros Ha. now rewrite linspace_negative.
  - intros Ha Hb.
    destruct (linspace_sample_count 0 1 Ha) as [x0 ->]. cbn [bind].
    now rewrite linspace_not_int.
  - intros Ha Hb.
    destruct (linspace_sample_count 0 1 Ha) as [x0 ->]. cbn [bind].
    now rewrite linspace_negative.
  - intros Ha Hb Hc.
    destruct (linspace_sample_count 0 1 Ha) as [x0 ->].
    destruct (linspace_sample_count 0 1 Hb) as [y0 ->]. cbn [bind].
    now rewrite linspace_not_int.
  - intros Ha Hb Hc.
    destruct (linspace_sample_count 0 1 Ha) as [x0 ->].
    destruct (linspace_sample_count 0 1 Hb) as [y0 ->]. cbn [bind].
    now rewrite linspace_negative.
Qed.

(** X20: the unit grid in closed form: along each axis the uniform samples of
    [[0, 1]] with both ends, so that for two samples or more the first
    coordinate is 0 and the last is 1. *)
Theorem unit_grid_samples (L : Lattice.t) (Nx Ny Nz : Z) :
  (0 < Nx)%Z -> (0 < Ny)%Z -> (0 < Nz)%Z ->
  Lattice.discretization L = [PyInt Nx; PyInt Ny; PyInt Nz] ->
  exists g,
    Lattice.unit_grid L = OK g
    /\ (forall i j k : nat,
          (i < Z.to_nat Nx)%nat -> (j < Z.to_nat Ny)%nat ->
          (k < Z.to_nat Nz)%nat ->
          at4 g 0 i j k = unit_sample Nx i
          /\ at4 g 1 i j k = unit_sample Ny j
          /\ at4 g 2 i j k = unit_sample Nz k)
    /\ ((2 <= Nx)%Z ->
        at4 g 0 0 0 0 = 0 /\ at4 g 0 (Z.to_nat Nx - 1) 0 0 = 1).
Proof.
  intros Hx Hy Hz Hd.
  destruct (linspace_unit Hx) as (x0 & Ex & Lx & _).
  destruct (linspace_unit Hy) as (y0 & Ey & Ly & _).
  destruct (linspace_unit Hz) as (z0 & Ez & Lz & _).
  exists (stack (meshgrid x0 y0 z0)).
  assert (Hat : forall i j k : nat,
             (i < Z.to_nat Nx)%nat -> (j < Z.to_nat Ny)%nat ->
             (k < Z.to_nat Nz)%nat ->
             at4 (stack (meshgrid x0 y0 z0)) 0 i j k = unit_sample Nx i
             /\ at4 (stack (meshgrid x0 y0 z0)) 1 i j k = unit_sample Ny j
             /\ at4 (stack (meshgrid x0 y0 z0)) 2 i j k = unit_sample Nz k).
  { intros i j k Hi Hj Hk.
    rewrite <- (@linspace_unit_nth Nx x0 i Ex Hi),
      <- (@linspace_unit_nth Ny y0 j Ey Hj),
      <- (@linspace_unit_nth Nz z0 k Ez Hk).
    rewrite <- Lx in Hi. rewrite <- Ly in Hj. rewrite <- Lz in Hk.
    unfold at4, meshgrid, stack. cbn [nth].
    split; [ | split ].
    - apply (mesh_at x0 y0 z0 (fun x _ _ => x) Hi Hj Hk).
    - apply (mesh_at x0 y0 z0 (fun _ y _ => y) Hi Hj Hk).
    - apply (mesh_at x0 y0 z0 (fun _ _ z => z) Hi Hj Hk). }
  split; [ | split; [ exact Hat | ] ].
  - unfold Lattice.unit_grid. now rewrite Hd, Ex, Ey, Ez.
  - intros H2.
    destruct (Hat 0%nat 0%nat 0%nat) as (-> & _); try lia.
    destruct (Hat (Z.to_nat Nx - 1)%nat 0%nat 0%nat) as (-> & _); try lia.
    unfold unit_sample.
    destruct (Z.eqb_spec Nx 1) as [E | _]; [ lia | ].
    assert (Hd' : IZR (Nx - 1) <> 0) by (apply not_0_IZR; lia).
    split.
    + cbn [INR]. field. exact Hd'.
    + rewrite INR_IZR_INZ.
      replace (Z.of_nat (Z.to_nat Nx - 1)) with (Nx - 1)%Z by lia.
      field. exact Hd'.
Qed.

(** ** [ones], [zeros] and [constant] *)

Lemma nd_map_full (A B : Type) (f : A -> B) (s : list nat) (v : A) :
  nd_map f (full s v) = full s (f v).
Proof.
  induction s as [| n s IH]; cbn [full nd_map]; [ reflexivity | ].
  now rewrite map_repeat, IH.
Qed.

Lemma flat_map_repeat (A B : Type) (f : A -> list B) (x : A) (v : B)
  (k n : nat) :
  f x = repeat v k -> flat_map f (repeat x n) = repeat v (n * k).
Proof.
  intros Hf. induction n as [| n IH]; cbn [repeat flat_map Nat.mul];
    [ reflexivity | ].
  now rewrite IH, Hf, repeat_app.
Qed.

(** A full array holds its value as many times as the product of its
    shape, and shows its shape when no axis is empty. *)
Lemma nd_items_full (A : Type) (s : list nat) (v : A) :
  nd_items (full s v) = repeat v (fold_right Nat.mul 1%nat s).
Proof.
  induction s as [| n s IH]; cbn [full nd_items fold_right];
    [ reflexivity | ].
  now apply flat_map_repeat.
Qed.

Lemma nd_shape_full (A : Type) (s : list nat) (v : A) :
  Forall (fun n => (0 < n)%nat) s -> nd_shape (full s v) = s.
Proof.
  induction 1 as [| n s Hn Hs IH]; cbn [full nd_shape]; [ reflexivity | ].
  rewrite repeat_length. f_equal.
  destruct n as [| n]; [ lia | ]. cbn [repeat]. exact IH.
Qed.

Lemma as_shape_ints (shape : list Z) :
  (length shape <= 64)%nat ->
  Forall (fun n => (0 <= n)%Z) shape ->
  as_shape (map PyInt shape) = OK (map Z.to_nat shape).
Proof.
  intros Hlen Hs. unfold as_shape. rewrite length_map.
  destruct (Nat.ltb_spec NPY_MAXDIMS (length shape)) as [Hlong | _];
    [ unfold NPY_MAXDIMS in Hlong; lia | ].
  assert (Hf : existsb (fun v => negb (is_int v)) (map PyInt shape)
               = false).
  { clear. induction shape as [| n s IH]; [ reflexivity | exact IH ]. }
  assert (Hn : existsb is_negative_int (map PyInt shape) = false).
  { clear Hf Hlen. induction Hs as [| n s Hn Hs IH]; [ reflexivity | ].
    cbn [map existsb is_negative_int].
    destruct (Z.ltb_spec n 0); [ lia | exact IH ]. }
  rewrite Hf, Hn, map_map. reflexivity.
Qed.

Lemma as_shape_inv (d : list pynum) (s : list nat) :
  as_shape d = OK s ->
  (length d <= 64)%nat
  /\ exists shape, d = map PyInt shape /\ Forall (fun n => (0 <= n)%Z) shape.
Proof.
  unfold as_shape.
  destruct (Nat.ltb_spec NPY_MAXDIMS (length d)) as [Hlong | Hlen];
    [ discriminate | ].
  destruct (existsb _ d) eqn:Hf; [ discriminate | ].
  destruct (existsb is_negative_int d) eqn:Hn; [ discriminate | ].
  intros _. clear s. split; [ exact Hlen | ]. clear Hlen.
  induction d as [| v d IH]; [ exists []; split; constructor | ].
  cbn [existsb] in Hf, Hn.
  apply orb_false_iff in Hf as [Hv Hf], Hn as [Hv' Hn].
  destruct (IH Hf Hn) as (shape & -> & Hshape).
  destruct v as [n | x | b |]; try discriminate.
  exists (n :: shape). split; [ reflexivity | ].
  constructor; [ | exact Hshape ].
  cbn [is_negative_int] in Hv'.
  destruct (Z.ltb_spec n 0); [ discriminate | lia ].
Qed.

Lemma as_shape_long (d : list pynum) :
  (64 < length d)%nat -> as_shape d = Raise ValueError.
Proof.
  intros Hlong. unfold as_shape.
  destruct (Nat.ltb_spec NPY_MAXDIMS (length d)) as [_ | Hlen];
    [ reflexivity | unfold NPY_MAXDIMS in Hlen; lia ].
Qed.

(** X21: [ones], [zeros] and [constant] return exactly when the
    discretization holds at most 64 entries, all of them integers and none
    negative; with more than 64 entries they raise [ValueError]. *)
Theorem uniform_arrays_defined_iff (L : Lattice.t) (value : complex) :
  let integers :=
    (length (Lattice.discretization L) <= 64)%nat
    /\ exists shape, Lattice.discretization L = map PyInt shape
                     /\ Forall (fun n => (0 <= n)%Z) shape in
  ((exists a, Lattice.ones L = OK a) <-> integers)
  /\ ((exists a, Lattice.zeros L = OK a) <-> integers)
  /\ ((exists a, Lattice.constant L value = OK a) <-> integers)
  /\ ((64 < length (Lattice.discretization L))%nat ->
      Lattice.ones L = Raise ValueError
      /\ Lattice.zeros L = Raise ValueError
      /\ Lattice.constant L value = Raise ValueError).
Proof.
  intros integers. unfold Lattice.constant, Lattice.ones, Lattice.zeros,
    bk_ones, bk_zeros.
  assert (Hiff : (exists s, as_shape (Lattice.discretization L) = OK s)
                 <-> integers).
  { split.
    - intros [s Hs]. exact (as_shape_inv _ Hs).
    - intros (Hlen & shape & Hd & Hshape). rewrite Hd in Hlen |- *.
      rewrite length_map in Hlen. rewrite as_shape_ints; eauto. }
  assert (Hlong : (64 < length (Lattice.discretization L))%nat ->
                  as_shape (Lattice.discretization L) = Raise ValueError)
    by apply as_shape_long.
  destruct (as_shape (Lattice.discretization L)) as [s | e]; cbn [bind].
  - assert integers by (apply Hiff; eauto).
    split; [ | split; [ | split ] ];
      try (split; [ intros _; assumption | intros _; eauto ]).
    intros Hl. apply Hlong in Hl. discriminate.
  - assert (~ integers) by (intros Hi; apply Hiff in Hi as [s Hs];
                            discriminate).
    split; [ | split; [ | split ] ];
      try (split; [ intros [a Ha]; discriminate | contradiction ]).
    intros Hl. apply Hlong in Hl. injection Hl as ->. repeat split.
Qed.

(** X22: for a discretization of at most 64 integers, none negative,
    [constant(value)] with a finite complex [value] holds [value] at every
    position, as many times as the product of the discretization, in an
    array of the shape of the discretization; [zeros()] is [constant(0)] and
    [ones()] is [constant(1)]. *)
Theorem constant_uniform (L : Lattice.t) (shape : list Z)
  (value : complex) :
  (length shape <= 64)%nat ->
  Forall (fun n => (0 <= n)%Z) shape ->
  Lattice.discretization L = map PyInt shape ->
  exists a,
    Lattice.constant L value = OK a
    /\ nd_items a
       = repeat value (fold_right Nat.mul 1%nat (map Z.to_nat shape))
    /\ (Forall (fun n => (0 < n)%Z) shape ->
        nd_shape a = map Z.to_nat shape)
    /\ Lattice.zeros L = Lattice.constant L (0, 0)
    /\ Lattice.ones L = Lattice.constant L (1, 0).
Proof.
  intros Hlen Hshape Hd.
  assert (Hc : forall v : complex,
             Lattice.constant L v = OK (full (map Z.to_nat shape) v)).
  { intros [c d]. unfold Lattice.constant, Lattice.ones, bk_ones.
    rewrite Hd, as_shape_ints by assumption. cbn [bind].
    unfold nd_times. rewrite nd_map_full. do 2 f_equal.
    unfold cmul. f_equal; ring. }
  exists (full (map Z.to_nat shape) value).
  split; [ apply Hc | split; [ apply nd_items_full | split; [ | split ] ] ].
  - intros Hpos. apply nd_shape_full.
    apply Forall_map. revert Hpos. apply Forall_impl. intros n Hn. lia.
  - rewrite Hc. unfold Lattice.zeros, bk_zeros.
    now rewrite Hd, as_shape_ints by assumption.
  - rewrite Hc. unfold Lattice.ones, bk_ones.
    now rewrite Hd, as_shape_ints by assumption.
Qed.

(** ** [dev/delete_artifacts.py]: which artifacts are deleted *)

Module DeleteArtifactsFacts.

Import DeleteArtifacts.

Lemma step_not_pages (st : state) (j : job) :
  is_pages j = false -> step st j = st.
Proof.
  destruct st as [jj deleted]. unfold is_pages, step.
  destruct (String.eqb (pipeline_status j) "success"); [ | reflexivity ].
  cbn [andb]. intros ->. reflexivity.
Qed.

Lemma step_pages (jj : Z) (deleted : list Z) (j : job) :
  is_pages j = true ->
  step (jj, deleted) j
  = ((jj + 1)%Z,
     if (jj + 1 >? 2)%Z && has_artifacts j then deleted ++ [job_id j]
     else deleted).
Proof.
  unfold is_pages, step, has_artifacts.
  destruct (String.eqb (pipeline_status j) "success"); [ | discriminate ].
  cbn [andb]. intros ->.
  destruct (jj + 1 >? 2)%Z; [ | reflexivity ].
  destruct (artifacts_file j); reflexivity.
Qed.

(** The loop from any counter: the pages jobs still to be spared are
    skipped, the ones after them lose their artifacts when they have any. *)
Lemma loop_from (jobs : list job) (jj : Z) (deleted : list Z) :
  (0 <= jj)%Z ->
  fold_left step jobs (jj, deleted)
  = ((jj + Z.of_nat (length (filter is_pages jobs)))%Z,
     deleted
     ++ map job_id
          (filter has_artifacts
             (skipn (Z.to_nat (2 - jj)) (filter is_pages jobs)))).
Proof.
  revert jj deleted.
  induction jobs as [| j jobs IH]; intros jj deleted Hjj;
    cbn [fold_left filter].
  - rewrite skipn_nil. cbn. now rewrite Z.add_0_r, app_nil_r.
  - destruct (is_pages j) eqn:Hp.
    + rewrite (step_pages jj deleted j Hp), IH by lia.
      cbn [length]. f_equal; [ lia | ].
      destruct (Z.gtb_spec (jj + 1) 2) as [Hgt | Hle].
      * replace (Z.to_nat (2 - (jj + 1))) with 0%nat by lia.
        replace (Z.to_nat (2 - jj)) with 0%nat by lia.
        cbn [skipn filter andb].
        destruct (has_artifacts j); cbn [map];
          [ now rewrite <- app_assoc | reflexivity ].
      * replace (Z.to_nat (2 - jj)) with (S (Z.to_nat (2 - (jj + 1))))
          by lia.
        reflexivity.
    + rewrite (step_not_pages _ j Hp). now apply IH.
Qed.

(** What the script returns for the jobs of the first project. *)
Lemma script_first_project (jobs : list job) (rest : list (list job)) :
  script (jobs :: rest)
  = OK (map job_id (filter has_artifacts (skipn 2 (filter is_pages jobs)))).
Proof. unfold script, loop. rewrite loop_from by lia. reflexivity. Qed.

(** X23: the artifacts deleted are those of the successful pages deployments
    after the first two, in order, a job without artifacts file being
    passed over; with no project found the script raises [IndexError]. *)
Theorem script_deletes_after_two (projects : list (list job)) :
  script projects
  = match projects with
    | [] => Raise IndexError
    | jobs :: _ =>
        OK (map job_id
              (filter has_artifacts (skipn 2 (filter is_pages jobs))))
    end.
Proof.
  destruct projects as [| jobs rest]; [ reflexivity | ].
  apply script_first_project.
Qed.

Lemma NoDup_map_filter (X K : Type) (key : X -> K) (keep : X -> bool)
  (xs : list X) (Hnd : NoDup (map key xs)) :
  NoDup (map key (filter keep xs)).
Proof.
  induction xs as [| x xs IHxs]; cbn [map filter] in *; [ constructor | ].
  apply NoDup_cons_iff in Hnd as [Hnotin Hnd].
  destruct (keep x); cbn [map]; [ | now apply IHxs ].
  constructor; [ | now apply IHxs ].
  intros Hin. apply Hnotin.
  apply in_map_iff in Hin as (y & <- & Hy).
  apply filter_In in Hy as [Hy _]. now apply in_map.
Qed.

Lemma NoDup_map_eq (A B : Type) (f : A -> B) (l : list A) (x y : A) :
  NoDup (map f l) -> In x l -> In y l -> f x = f y -> x = y.
Proof.
  induction l as [| a l IH]; cbn [map]; intros Hnd Hx Hy E;
    [ contradiction | ].
  apply NoDup_cons_iff in Hnd as [Hnotin Hnd].
  destruct Hx as [-> | Hx], Hy as [-> | Hy].
  - reflexivity.
  - destruct Hnotin. rewrite E. now apply in_map.
  - destruct Hnotin. rewrite <- E. now apply in_map.
  - now apply IH.
Qed.

Lemma NoDup_app_disjoint (A : Type) (l l' : list A) (x : A) :
  NoDup (l ++ l') -> In x l -> In x l' -> False.
Proof.
  induction l as [| a l IH]; cbn [app]; intros Hnd Hx Hx';
    [ contradiction | ].
  apply NoDup_cons_iff in Hnd as [Hnotin Hnd].
  destruct Hx as [-> | Hx].
  - apply Hnotin, in_or_app. now right.
  - now apply IH.
Qed.

(** X24: with distinct job identifiers, the first two successful pages
    deployments keep their artifacts, and so does every job that is not a
    successful pages deployment. *)
Theorem script_keeps_first_two (jobs : list job) (rest : list (list job))
  (deleted : list Z) (j : job) :
  NoDup (map job_id jobs) ->
  script (jobs :: rest) = OK deleted ->
  In j jobs ->
  is_pages j = false \/ In j (firstn 2 (filter is_pages jobs)) ->
  ~ In (job_id j) deleted.
Proof.
  intros Hnd Hrun Hj Hkeep Hdel.
  rewrite script_first_project in Hrun. injection Hrun as <-.
  apply in_map_iff in Hdel as (j' & Hid & Hj').
  apply filter_In in Hj' as [Hj' _].
  assert (Hpages : In j' (filter is_pages jobs)).
  { rewrite <- (firstn_skipn 2 (filter is_pages jobs)).
    apply in_or_app. right. exact Hj'. }
  assert (Hsame : j' = j).
  { apply filter_In in Hpages as [Hin _].
    apply (NoDup_map_eq job_id jobs); assumption. }
  subst j'. destruct Hkeep as [Hnot | Hfirst].
  - apply filter_In in Hpages as [_ Hp]. congruence.
  - pose proof (NoDup_map_filter job_id is_pages jobs Hnd) as Hnd'.
    rewrite <- (firstn_skipn 2 (filter is_pages jobs)), map_app in Hnd'.
    apply (NoDup_app_disjoint _ _ (job_id j) Hnd'); now apply in_map.
Qed.

End DeleteArtifactsFacts.

(** ** What the weight [Gl2] measures *)

Lemma Gl2_of_decomposition (Lk : mat3) (t : index3) :
  Gl2_of Lk t
  = dot (reciprocal_vector Lk t) (reciprocal_vector Lk t) + axis_weight Lk t.
Proof.
  destruct Lk as [[k0 k1] k2], t as [[i0 i1] i2].
  unfold Gl2_of, pair_form, reciprocal_vector, axis_weight.
  rewrite !norm_sq.
  destruct k0 as [[? ?] ?], k1 as [[? ?] ?], k2 as [[? ?] ?].
  unfold dot, vadd, scale3. ring.
Qed.

(** X17: the key that the loop accumulates for a candidate is the squared length
    of its reciprocal-lattice vector plus its indices squared, weighted by
    the squared lengths of the basis rows; for pairwise orthogonal rows it is
    twice the squared length of the reciprocal-lattice vector. *)
Theorem Gl2_loop_decomposition (Lk : mat3) (cs : list index3) :
  Gl2_loop (rows_of cs) (map3 norm Lk) Lk
  = OK (Array
          (map (fun t =>
                  dot (reciprocal_vector Lk t) (reciprocal_vector Lk t)
                  + axis_weight Lk t) cs))
  /\ (let '(k0, k1, k2) := Lk in
      dot k0 k1 = 0 -> dot k1 k2 = 0 -> dot k2 k0 = 0 ->
      Gl2_loop (rows_of cs) (map3 norm Lk) Lk
      = OK (Array
              (map (fun t =>
                      2 * dot (reciprocal_vector Lk t)
                            (reciprocal_vector Lk t)) cs))).
Proof.
  rewrite Gl2_loop_rows. split.
  - do 2 f_equal. apply map_ext. intros t. apply Gl2_of_decomposition.
  - destruct Lk as [[k0 k1] k2]. intros H01 H12 H20.
    do 2 f_equal. apply map_ext. intros [[i0 i1] i2].
    rewrite Gl2_of_decomposition.
    assert (E : dot (reciprocal_vector (k0, k1, k2) (i0, i1, i2))
                    (reciprocal_vector (k0, k1, k2) (i0, i1, i2))
                = axis_weight (k0, k1, k2) (i0, i1, i2)
                  + 2 * (IZR i0 * IZR i1 * dot k0 k1
                         + IZR i1 * IZR i2 * dot k1 k2
                         + IZR i2 * IZR i0 * dot k2 k0)).
    { unfold reciprocal_vector, axis_weight.
      destruct k0 as [[? ?] ?], k1 as [[? ?] ?], k2 as [[? ?] ?].
      unfold dot, vadd, scale3. ring. }
    rewrite H01, H12, H20 in E. lra.
Qed.

(** ** [volume] on basis vectors given as Python ints *)

Lemma triple_product_cyclic_int (v0 v1 v2 : triple Z) :
  triple_product v1 v2 v0 = triple_product v0 v1 v2.
Proof.
  destruct v0 as [[? ?] ?], v1 as [[? ?] ?], v2 as [[? ?] ?].
  unfold triple_product. ring.
Qed.

Lemma triple_product_exchange_int (v0 v1 v2 : triple Z) :
  triple_product v1 v0 v2 = (- triple_product v0 v1 v2)%Z.
Proof.
  destruct v0 as [[? ?] ?], v1 as [[? ?] ?], v2 as [[? ?] ?].
  unfold triple_product. ring.
Qed.

(** X25: for basis vectors given as Python ints of the [int64] range,
    [volume] is the absolute value of the triple product reduced modulo
    [2 ^ 64] into that range: it is the absolute value of the triple product
    itself whenever that lies in the range, and in every case it does not
    change when the basis vectors are permuted cyclically or two of them are
    exchanged. *)
Theorem volume_int64_modular (v0 v1 v2 : triple Z) :
  int64_vector v0 -> int64_vector v1 -> int64_vector v2 ->
  Lattice.volume_int64 (v0, v1, v2)
  = OK (IZR (Z.abs (wrap64 (triple_product v0 v1 v2))))
  /\ ((- 2 ^ 63 <= triple_product v0 v1 v2 < 2 ^ 63)%Z ->
      Lattice.volume_int64 (v0, v1, v2)
      = OK (IZR (Z.abs (triple_product v0 v1 v2))))
  /\ Lattice.volume_int64 (v1, v2, v0) = Lattice.volume_int64 (v0, v1, v2)
  /\ Lattice.volume_int64 (v2, v0, v1) = Lattice.volume_int64 (v0, v1, v2)
  /\ Lattice.volume_int64 (v1, v0, v2) = Lattice.volume_int64 (v0, v1, v2).
Proof.
  intros _ _ _. rewrite !volume_int64_eq.
  split; [ reflexivity | split; [ | split; [ | split ] ] ].
  - intros Hr. now rewrite wrap64_small.
  - now rewrite triple_product_cyclic_int.
  - now rewrite <- (triple_product_cyclic_int v2 v0 v1).
  - now rewrite triple_product_exchange_int, wrap64_opp_abs.
Qed.

(** ** Where the truncated float power is the integer cube root *)

Section FloorCubeRoot.

Context {FA : FloatArith} {AP : AccuratePow FA} `{Backend}.


End FloorCubeRoot.

(** ** The further statements at concrete inputs *)

Lemma reference_return_27 :
  exists G,
    @Lattice.get_harmonics exact_arith reference_backend
      (cubic 1 "parallelogrammic" None) (PyInt 27) = OK (G, 27%Z).
Proof.
  apply (@get_harmonics_count exact_arith reference_backend
           (cubic 1 "parallelogrammic" None) 27 3);
    [ reflexivity | reflexivity | apply cubic_independent; lra | lia
    | exact exact_cbrt_27 | lia ].
Qed.

Lemma reference_return_27_wide :
  exists G,
    @Lattice.get_harmonics exact_arith reference_backend
      (cubic 2 "parallelogrammic" None) (PyInt 27) = OK (G, 27%Z).
Proof.
  apply (@get_harmonics_count exact_arith reference_backend
           (cubic 2 "parallelogrammic" None) 27 3);
    [ reflexivity | reflexivity | apply cubic_independent; lra | lia
    | exact exact_cbrt_27 | lia ].
Qed.


Lemma reciprocal_scale_witness :
  exists Lk,
    Lattice.reciprocal (cubic 1 "parallelogrammic" None) = OK Lk
    /\ Lattice.reciprocal (cubic 3 "parallelogrammic" None)
       = OK (mscale (/ 3) Lk).
Proof.
  destruct (reciprocal_regular (cubic 1 "parallelogrammic" None))
    as (m & _ & Hrec); [ apply cubic_independent; lra | ].
  exists (mscale (2 * PI) (transpose m)). split; [ exact Hrec | ].
  pose proof (@reciprocal_scale (cubic 1 "parallelogrammic" None) 3
                (mscale (2 * PI) (transpose m)) ltac:(lra) Hrec) as Hs.
  cbn [cubic Lattice.basis_vectors] in Hs.
  replace (cubic 3 "parallelogrammic" None)
    with (with_basis (cubic 1 "parallelogrammic" None)
            (scale3 3 (1, 0, 0), scale3 3 (0, 1, 0), scale3 3 (0, 0, 1))).
  - exact Hs.
  - unfold with_basis, cubic, scale3. cbn [Lattice.truncation
      Lattice.discretization Lattice.harmonics_array].
    f_equal. repeat apply (f_equal2 pair); ring.
Defined.

Lemma reciprocal_reciprocal_witness :
  exists Lk,
    Lattice.reciprocal (cubic 2 "parallelogrammic" None) = OK Lk
    /\ Lattice.reciprocal
         (with_basis (cubic 2 "parallelogrammic" None) (transpose Lk))
       = OK (Lattice.matrix (cubic 2 "parallelogrammic" None)).
Proof.
  destruct (reciprocal_regular (cubic 2 "parallelogrammic" None))
    as (m & _ & Hrec); [ apply cubic_independent; lra | ].
  exists (mscale (2 * PI) (transpose m)). split; [ exact Hrec | ].
  exact (@reciprocal_reciprocal (cubic 2 "parallelogrammic" None) _ Hrec).
Defined.

Lemma get_harmonics_negative_raises_witness :
  @Lattice.get_harmonics exact_arith reference_backend
    (cubic 1 "parallelogrammic" None) (PyInt (-8)) = Raise TypeError.
Proof.
  destruct (reciprocal_regular (cubic 1 "parallelogrammic" None))
    as (m & _ & Hrec); [ apply cubic_independent; lra | ].
  destruct (@get_harmonics_negative_raises exact_arith reference_backend
              (cubic 1 "parallelogrammic" None) _ (-8) eq_refl eq_refl
              Hrec ltac:(lia)) as [Htype _].
  apply Htype. reflexivity.
Defined.


Lemma get_harmonics_count_columns_witness :
  exists G,
    @Lattice.get_harmonics exact_arith reference_backend
      (cubic 1 "parallelogrammic" None) (PyInt 27) = OK (G, 27%Z)
    /\ NoDup (columns G)
    /\ Z.of_nat (length (columns G)) = Z.max 27 0.
Proof.
  destruct reference_return_27 as [G HG]. exists G.
  destruct (@get_harmonics_count_columns exact_arith reference_backend
              (cubic 1 "parallelogrammic" None) (PyInt 27) G 27
              eq_refl eq_refl HG)
    as (_ & Hnd & _ & _ & Hlen).
  split; [ exact HG | split; [ exact Hnd | exact Hlen ] ].
Defined.

Lemma get_harmonics_origin_first_witness :
  exists G,
    @Lattice.get_harmonics exact_arith reference_backend
      (cubic 1 "parallelogrammic" None) (PyInt 27) = OK (G, 27%Z)
    /\ hd_error (columns G) = Some (0, 0, 0)%Z.
Proof.
  destruct reference_return_27 as [G HG]. exists G.
  destruct (@get_harmonics_origin_first exact_arith reference_backend
              (cubic 1 "parallelogrammic" None) (PyInt 27) G 27
              eq_refl eq_refl HG ltac:(lia))
    as (Hhd & _).
  split; [ exact HG | exact Hhd ].
Defined.

Lemma get_harmonics_symmetric_witness :
  exists G,
    @Lattice.get_harmonics exact_arith reference_backend
      (cubic 1 "parallelogrammic" None) (PyInt 27) = OK (G, 27%Z)
    /\ forall i j k : Z,
        In (i, j, k) (columns G) -> In (- i, - j, - k)%Z (columns G).
Proof.
  destruct reference_return_27 as [G HG]. exists G.
  split; [ exact HG | ].
  exact (@get_harmonics_symmetric exact_arith reference_backend
           (cubic 1 "parallelogrammic" None) (PyInt 27) G 27
           eq_refl eq_refl HG).
Defined.

Lemma get_harmonics_basis_independent_witness :
  exists G G',
    @Lattice.get_harmonics exact_arith reference_backend
      (cubic 1 "parallelogrammic" None) (PyInt 27) = OK (G, 27%Z)
    /\ @Lattice.get_harmonics exact_arith reference_backend
         (cubic 2 "parallelogrammic" None) (PyInt 27) = OK (G', 27%Z)
    /\ Permutation (columns G) (columns G').
Proof.
  destruct reference_return_27 as [G HG].
  destruct reference_return_27_wide as [G' HG'].
  exists G, G'.
  destruct (@get_harmonics_basis_independent exact_arith reference_backend
              (cubic 1 "parallelogrammic" None)
              (cubic 2 "parallelogrammic" None) (PyInt 27) G G' 27 27
              eq_refl eq_refl eq_refl eq_refl HG HG')
    as (_ & Hperm).
  split; [ exact HG | split; [ exact HG' | exact Hperm ] ].
Defined.

Lemma unit_grid_bad_axis_witness :
  Lattice.unit_grid
    (with_discretization (cubic 1 "parallelogrammic" None)
       [PyInt 4; PyInt 4; PyFloat (5 / 2)])
  = Raise TypeError.
Proof.
  destruct (@unit_grid_bad_axis
              (with_discretization (cubic 1 "parallelogrammic" None)
                 [PyInt 4; PyInt 4; PyFloat (5 / 2)])
              (PyInt 4) (PyInt 4) (PyFloat (5 / 2)) eq_refl)
    as (_ & _ & _ & _ & Hthird & _).
  apply Hthird; [ | | reflexivity ];
    exists 4%Z; split; [ reflexivity | lia | reflexivity | lia ].
Defined.

Lemma unit_grid_samples_witness :
  exists g,
    Lattice.unit_grid (cubic 1 "parallelogrammic" None) = OK g
    /\ at4 g 0 0 0 0 = 0 /\ at4 g 0 255 0 0 = 1.
Proof.
  destruct (@unit_grid_samples (cubic 1 "parallelogrammic" None)
              256 256 256 ltac:(lia) ltac:(lia) ltac:(lia) eq_refl)
    as (g & Hg & _ & Hends).
  exists g. split; [ exact Hg | ].
  apply Hends. lia.
Defined.

Lemma constant_uniform_witness :
  exists a,
    Lattice.constant
      (with_discretization (cubic 1 "parallelogrammic" None)
         [PyInt 2; PyInt 3; PyInt 4]) (5, 7)
    = OK a
    /\ nd_items a = repeat (5, 7) 24
    /\ nd_shape a = [2; 3; 4]%nat.
Proof.
  destruct (@constant_uniform
              (with_discretization (cubic 1 "parallelogrammic" None)
                 [PyInt 2; PyInt 3; PyInt 4])
              [2; 3; 4]%Z (5, 7))
    as (a & Ha & Hitems & Hshape & _).
  - cbn [length]. lia.
  - repeat constructor; lia.
  - reflexivity.
  - exists a. split; [ exact Ha | split; [ exact Hitems | ] ].
    apply Hshape. repeat constructor; lia.
Defined.

Lemma script_keeps_first_two_witness :
  DeleteArtifacts.script
    [[pages_job 3 (Some "a"%string); pages_job 2 (Some "b"%string);
      pages_job 1 (Some "c"%string)]]
  = OK [1%Z]
  /\ ~ In (DeleteArtifacts.job_id (pages_job 3 (Some "a"%string))) [1%Z].
Proof.
  assert (Hrun : DeleteArtifacts.script
                   [[pages_job 3 (Some "a"%string);
                     pages_job 2 (Some "b"%string);
                     pages_job 1 (Some "c"%string)]] = OK [1%Z])
    by reflexivity.
  split; [ exact Hrun | ].
  apply (@DeleteArtifactsFacts.script_keeps_first_two
           [pages_job 3 (Some "a"%string); pages_job 2 (Some "b"%string);
            pages_job 1 (Some "c"%string)] [] [1%Z]
           (pages_job 3 (Some "a"%string)));
    [ | exact Hrun | left; reflexivity | right; left; reflexivity ].
  cbn [map pages_job DeleteArtifacts.job_id].
  repeat (constructor; [ cbn [In]; intuition discriminate | ]).
  constructor.
Defined.

Lemma volume_int64_modular_witness :
  Lattice.volume_int64 ((3, 0, 0), (0, 3, 0), (0, 0, 3))%Z = OK 27.
Proof.
  destruct (@volume_int64_modular (3, 0, 0)%Z (0, 3, 0)%Z (0, 0, 3)%Z)
    as (_ & Hexact & _);
    try (unfold int64_vector, in_int64; lia).
  etransitivity; [ apply Hexact | reflexivity ].
  cbn [triple_product]. lia.
Defined.

